(** * StreetCam: motion-triggered recording

    A shallow embedding of the two scripts of the repository,
    [main.py] (frame differencing against a stored background) and
    [main_2.py] (MOG2 background subtraction), and the properties of
    their per-frame recording logic.

    Python integers are unbounded, so counters and thresholds are [Z].
    The OpenCV, clock and file-system calls are the environment: what
    they return while one frame is handled is an input of that pass of
    the loop ([capture], [event]); the image operations whose result the
    scripts store are parameters of a section.

    The ways a script can end are part of the model: a read that gives
    no frame, the quit key, a KeyboardInterrupt while the loop waits for
    the camera, [os.makedirs] raising [OSError], a camera that does not
    open, a command line [argparse] refuses. The OpenCV calls on a frame
    that was read are taken to return, and a writer that does not open
    to take its frames without complaint, as [cv2.VideoWriter] does. *)

From stdpp Require Import base numbers list strings.
From Stdlib Require Import Ascii DecimalString DecimalN.

Open Scope Z_scope.

(** ** Images and video writers *)

(** A colour frame is a height x width array of BGR pixels, a grayscale
    image one of intensities. *)
Definition pixel : Type := Z * Z * Z.
Definition frame : Type := list (list pixel).
Definition image : Type := list (list Z).

(** Python's [a[lo:hi]] on a sequence of length [len]: a negative bound
    counts from the end, and both bounds are clipped to [0, len]. *)
Definition slice_bound (len i : Z) : Z :=
  if i <? 0 then Z.max 0 (i + len) else Z.min i len.

Definition py_slice {A} (lo hi : Z) (l : list A) : list A :=
  let len := Z.of_nat (length l) in
  let a := slice_bound len lo in
  let b := slice_bound len hi in
  take (Z.to_nat (b - a)) (drop (Z.to_nat a) l).

(** [img[y:y + h, x:x + w]] *)
Definition crop {A} (x y w h : Z) (img : list (list A)) : list (list A) :=
  py_slice x (x + w) <$> py_slice y (y + h) img.

(** A [cv2.VideoWriter] object. The constructor never raises: when the
    file cannot be created the object exists but is not opened.
    [written] lists the frames handed to [write] before [release]; they
    reach the file only when the writer is opened, and then each of
    them does, the frames being taken to have the size the writer was
    made for. *)
Record VideoWriter := mkWriter {
  path : string;
  opened : bool;
  released : bool;
  written : list frame
}.

Definition cv2_VideoWriter (p : string) (ok : bool) : VideoWriter :=
  mkWriter p ok false [].

Definition write (f : frame) (w : VideoWriter) : VideoWriter :=
  if released w then w
  else mkWriter (path w) (opened w) (released w) (written w ++ [f]).

Definition release (w : VideoWriter) : VideoWriter :=
  mkWriter (path w) (opened w) true (written w).

(** The frames in the file the writer produces. *)
Definition file_of (w : VideoWriter) : list frame :=
  if opened w then written w else [].

(** The clip writers ever created, in creation order; a Python reference
    to one of them is its index. *)
Abbreviation heap := (list VideoWriter).

(** A writer the script has not released, whether or not it opened. *)
Definition held (w : VideoWriter) : bool := negb (released w).

(** A writer that takes frames into its file: opened and not released. *)
Definition live (w : VideoWriter) : bool := opened w && negb (released w).

(** Handles of the writers not yet released, those of [h] numbered
    from [i]. *)
Fixpoint held_from (i : nat) (h : heap) : list nat :=
  match h with
  | [] => []
  | w :: h' => (if held w then [i] else []) ++ held_from (S i) h'
  end.

Definition held_handles (h : heap) : list nat := held_from 0 h.

(** Handles of the writers that are open. *)
Fixpoint open_from (i : nat) (h : heap) : list nat :=
  match h with
  | [] => []
  | w :: h' => (if live w then [i] else []) ++ open_from (S i) h'
  end.

Definition open_handles (h : heap) : list nat := open_from 0 h.

(** The entry in row [i] and column [j] of an array. *)
Definition pixel_at {A} (img : list (list A)) (i j : nat) : option A :=
  img !! i ≫= (fun row => row !! j).

(** ** Formatting *)

(** [f"{n:03d}"]: decimal, zero-padded to three characters, the sign
    counted in the width. *)
Definition digits (n : Z) : string :=
  NilZero.string_of_uint (N.to_uint (Z.to_N n)).

Fixpoint zeros (k : nat) : string :=
  match k with
  | O => EmptyString
  | S k' => String "0"%char (zeros k')
  end.

Definition fmt_03d (n : Z) : string :=
  if n <? 0
  then "-" +:+ zeros (2 - String.length (digits (- n)))%nat +:+ digits (- n)
  else zeros (3 - String.length (digits n))%nat +:+ digits n.

(** The number a string of decimal digits stands for, leading zeros
    allowed; [None] when another character occurs. *)
Definition read_decimal (s : string) : option N :=
  N.of_uint <$> NilEmpty.uint_of_string s.

(** ** One loop iteration's view of the environment *)

(** What the OpenCV and clock calls return while one frame is handled. *)
Record capture := mkCapture {
  cap_frame : frame;     (* camera.read() with ret True *)
  motion : bool;         (* len(contours) > 0, resp. motion_area > sensitivity *)
  ymd : string;          (* now().strftime('%Y%m%d') *)
  hms : string;          (* now().strftime('%H%M%S') *)
  open_ok : bool;        (* whether a VideoWriter created now gets opened *)
  key_q : bool           (* cv2.waitKey(1) & 0xFF == ord('q') *)
}.

(** Which branch of the recording logic a frame took: [Start] is the
    branch that creates a clip writer, [Stop] the one that releases it. *)
Inductive Decision := Start | Stop | NoChange.

#[global] Instance Decision_eq_dec : EqDecision Decision.
Proof. solve_decision. Defined.

Record outcome := mkOutcome {
  decision : Decision;
  refreshed : bool       (* the reference image was replaced *)
}.

(** The exceptions the scripts can be left by. *)
Inductive exn := KeyboardInterrupt | OSError.

(** How far a loop has got: still running, left in the regular way, or
    left by an exception that ends the script. *)
Inductive status := Running | Finished | Raised (e : exn).

#[global] Instance exn_eq_dec : EqDecision exn.
Proof. solve_decision. Defined.

#[global] Instance status_eq_dec : EqDecision status.
Proof. solve_decision. Defined.

(** What one pass of the loop meets. [Frame c folder_ok]: the camera
    gives the capture [c]; [folder_ok] is whether the folder of the day
    is there or [os.makedirs] can make it, which only [main_2.py] asks.
    [NoFrame]: [camera.read()] returns [ret] false. [Interrupt]: a
    KeyboardInterrupt arrives, taken to arrive while the loop waits for
    the camera; one that arrives between two statements of the body is
    not modelled. *)
Inductive event :=
  | Frame (c : capture) (folder_ok : bool)
  | NoFrame
  | Interrupt.

(** Thresholds of the recording logic and the number of frames between
    two replacements of the reference image. [main.py] fixes them as the
    constants 10, 20 and 300. *)
Record config := mkConfig {
  motion_threshold : Z;
  no_motion_threshold : Z;
  refresh_interval : Z
}.

Record roi := mkRoi { roi_x : Z; roi_y : Z; roi_width : Z; roi_height : Z }.

(** ** main.py *)

Module Main.

(** The module-level variables of [main.py] that the loop changes.
    [out] is [None] or a reference to a clip writer. The messages the
    script prints are not part of the state. *)
Record state := mkState {
  clip_number : Z;
  motion_detected : bool;
  motion_counter : Z;
  no_motion_counter : Z;
  out : option nat;
  frame_count : Z;
  first_gray_roi : image;
  big_clip_out : VideoWriter;
  writers : heap
}.

Definition set_clip_number v s :=
  mkState v (motion_detected s) (motion_counter s) (no_motion_counter s)
    (out s) (frame_count s) (first_gray_roi s) (big_clip_out s) (writers s).
Definition set_motion_detected v s :=
  mkState (clip_number s) v (motion_counter s) (no_motion_counter s)
    (out s) (frame_count s) (first_gray_roi s) (big_clip_out s) (writers s).
Definition set_motion_counter v s :=
  mkState (clip_number s) (motion_detected s) v (no_motion_counter s)
    (out s) (frame_count s) (first_gray_roi s) (big_clip_out s) (writers s).
Definition set_no_motion_counter v s :=
  mkState (clip_number s) (motion_detected s) (motion_counter s) v
    (out s) (frame_count s) (first_gray_roi s) (big_clip_out s) (writers s).
Definition set_out v s :=
  mkState (clip_number s) (motion_detected s) (motion_counter s)
    (no_motion_counter s) v (frame_count s) (first_gray_roi s)
    (big_clip_out s) (writers s).
Definition set_frame_count v s :=
  mkState (clip_number s) (motion_detected s) (motion_counter s)
    (no_motion_counter s) (out s) v (first_gray_roi s) (big_clip_out s)
    (writers s).
Definition set_first_gray_roi v s :=
  mkState (clip_number s) (motion_detected s) (motion_counter s)
    (no_motion_counter s) (out s) (frame_count s) v (big_clip_out s)
    (writers s).
Definition set_big_clip_out v s :=
  mkState (clip_number s) (motion_detected s) (motion_counter s)
    (no_motion_counter s) (out s) (frame_count s) (first_gray_roi s) v
    (writers s).
Definition set_writers v s :=
  mkState (clip_number s) (motion_detected s) (motion_counter s)
    (no_motion_counter s) (out s) (frame_count s) (first_gray_roi s)
    (big_clip_out s) v.

(** [roi_x, roi_y, roi_width, roi_height = 250, 150, 200, 200] *)
Definition the_roi : roi := mkRoi 250 150 200 200.

(** [MOTION_THRESHOLD = 10], [NO_MOTION_THRESHOLD = 20], and the literal
    300 of [frame_count % 300]. The functions below take them from a
    [config], of which this is the script's instance. *)
Definition the_config : config := mkConfig 10 20 300.

(** [create_new_writer(clip_num)]: the writer and its file name. *)
Definition create_new_writer (c : capture) (clip_num : Z)
  : VideoWriter * string :=
  let output_filename :=
    "clip_" +:+ fmt_03d clip_num +:+ "_" +:+ ymd c +:+ "_" +:+ hms c
      +:+ ".mp4" in
  (cv2_VideoWriter output_filename (open_ok c), output_filename).

(** Lines 85-108: the counters and the start and stop of a clip.
    [out, filename = create_new_writer(clip_number)] allocates the new
    writer at the end of the heap. *)
Definition detect (cfg : config) (c : capture) (s : state)
  : state * Decision :=
  if motion c then
    let s := set_motion_counter (motion_counter s + 1) s in
    let s := set_no_motion_counter 0 s in
    if (motion_threshold cfg <? motion_counter s) && negb (motion_detected s)
    then
      let s := set_clip_number (clip_number s + 1) s in
      let '(w, _) := create_new_writer c (clip_number s) in
      let s := set_out (Some (length (writers s)))
                 (set_writers (writers s ++ [w]) s) in
      (set_motion_detected true s, Start)
    else (s, NoChange)
  else
    let s := set_no_motion_counter (no_motion_counter s + 1) s in
    if (no_motion_threshold cfg <? no_motion_counter s) && motion_detected s
    then
      let s := set_motion_detected false s in
      let s := match out s with
               | Some h => set_writers (alter release h (writers s)) s
               | None => s
               end in
      let s := set_out None s in
      (set_motion_counter 0 s, Stop)
    else (s, NoChange).

(** Lines 110-115: the frame goes to the full-session writer, and to the
    clip writer when there is one. *)
Definition record (f : frame) (s : state) : state :=
  let s := set_big_clip_out (write f (big_clip_out s)) s in
  match out s with
  | Some h =>
      if motion_detected s then set_writers (alter (write f) h (writers s)) s
      else s
  | None => s
  end.

Section Cv2.

(** [cv2.GaussianBlur(cv2.cvtColor(f, cv2.COLOR_BGR2GRAY), (21, 21), 0)] *)
Variable gray_blur : frame -> image.
(** [cv2.rectangle(f, p, q, (0, 0, 255), 2)], which draws on [f] itself. *)
Variable cv2_rectangle : frame -> Z * Z -> Z * Z -> frame.

(** [update_background(frame, interval=300)]; [interval] is not used. *)
Definition update_background (f : frame) (interval : Z) : image :=
  gray_blur f.

Definition crop_roi {A} (img : list (list A)) : list (list A) :=
  crop (roi_x the_roi) (roi_y the_roi) (roi_width the_roi)
    (roi_height the_roi) img.

(** Lines 117-125. The rectangle is drawn on the frame after it was
    recorded and before the background is taken from it. *)
Definition refresh (cfg : config) (f : frame) (s : state) : state * bool :=
  let f := cv2_rectangle f (roi_x the_roi, roi_y the_roi)
             (roi_x the_roi + roi_width the_roi,
              roi_y the_roi + roi_height the_roi) in
  if frame_count s `mod` refresh_interval cfg =? 0
  then (set_first_gray_roi (crop_roi (update_background f 300)) s, true)
  else (s, false).

(** The body of [if ret:] up to the key check. *)
Definition on_frame (cfg : config) (c : capture) (s : state)
  : state * outcome :=
  let '(s, d) := detect cfg c s in
  let s := record (cap_frame c) s in
  let '(s, r) := refresh cfg (cap_frame c) s in
  (s, mkOutcome d r).

(** One iteration that read a frame: [frame_count += 1], then the body. *)
Definition iteration (cfg : config) (s : state) (c : capture)
  : state * outcome :=
  on_frame cfg c (set_frame_count (frame_count s + 1) s).

(** Lines 137-140, after the loop. *)
Definition teardown (s : state) : state :=
  let s := match out s with
           | Some h => set_writers (alter release h (writers s)) s
           | None => s
           end in
  set_big_clip_out (release (big_clip_out s)) s.

(** The [while True] loop and what follows it. A list of events that
    ends before the loop does leaves it [Running]. The script creates no
    folder, so it does not look at [folder_ok]. Nothing catches a
    KeyboardInterrupt: the script ends at once, without lines 137-140. *)
Fixpoint loop (cfg : config) (s : state) (evs : list event)
  : state * status :=
  match evs with
  | [] => (s, Running)
  | NoFrame :: _ =>
      (teardown (set_frame_count (frame_count s + 1) s), Finished)
  | Interrupt :: _ => (s, Raised KeyboardInterrupt)
  | Frame c _ :: rest =>
      let s := (iteration cfg s c).1 in
      if key_q c then (teardown s, Finished) else loop cfg s rest
  end.

(** The frames the loop handles one after the other. *)
Fixpoint run (cfg : config) (s : state) (cs : list capture) : state :=
  match cs with
  | [] => s
  | c :: cs => run cfg (iteration cfg s c).1 cs
  end.

Fixpoint outcomes (cfg : config) (s : state) (cs : list capture)
  : list outcome :=
  match cs with
  | [] => []
  | c :: cs => (iteration cfg s c).2 :: outcomes cfg (iteration cfg s c).1 cs
  end.

Definition decisions cfg s cs : list Decision :=
  decision <$> outcomes cfg s cs.

(** Lines 27-61: the state when the loop is entered. The first frame
    read only seeds the background. *)
Definition initial (first_frame : frame) (stamp : string) (big_ok : bool)
  : state :=
  mkState 1 false 0 0 None 0 (crop_roi (gray_blur first_frame))
    (cv2_VideoWriter ("full_" +:+ stamp +:+ ".mp4") big_ok) [].

(** Lines 5-61. [None] when the camera did not open ([exit()]) or the
    first read gave no frame ([cvtColor] raises). *)
Definition startup (camera_opened : bool) (first_read : option frame)
    (stamp : string) (big_ok : bool) : option state :=
  if camera_opened then
    match first_read with
    | Some first_frame => Some (initial first_frame stamp big_ok)
    | None => None
    end
  else None.

End Cv2.

End Main.

(** ** main_2.py *)

Module Main2.

(** The namespace [parse_arguments] returns. *)
Record args := mkArgs {
  a_motion_threshold : Z;
  a_no_motion_threshold : Z;
  a_sensitivity : Z;
  a_roi : Z * Z * Z * Z
}.

(** What the command line holds for one option: nothing, a value of
    the type the option asks for, or something [argparse] does not take
    for it (no integer; for [--roi], not four of them). *)
Inductive given (A : Type) :=
  | Absent
  | Value (v : A)
  | Unusable.
Arguments Absent {A}.
Arguments Value {A} v.
Arguments Unusable {A}.

(** The command line: the four options, and whether it holds anything
    else ([-h], an option the parser does not know, a stray word). *)
Record cmdline := mkCmdline {
  opt_motion_threshold : given Z;
  opt_no_motion_threshold : given Z;
  opt_sensitivity : given Z;
  opt_roi : given (Z * Z * Z * Z);
  opt_other : bool
}.

(** The value of one option, the default when it is absent; [None] when
    the parser refuses it. *)
Definition option_value {A} (dflt : A) (g : given A) : option A :=
  match g with
  | Absent => Some dflt
  | Value v => Some v
  | Unusable => None
  end.

(** [parse_arguments()]. [None]: [parser.parse_args()] ends the script
    ([SystemExit]), after the help text or a usage error. *)
Definition parse_arguments (cl : cmdline) : option args :=
  if opt_other cl then None
  else
    mt ← option_value 10 (opt_motion_threshold cl);
    nmt ← option_value 20 (opt_no_motion_threshold cl);
    se ← option_value 500 (opt_sensitivity cl);
    r ← option_value (250, 150, 200, 200) (opt_roi cl);
    Some (mkArgs mt nmt se r).

Definition validate_roi (roi_coords : Z * Z * Z * Z)
    (frame_width frame_height : Z) : Z * Z * Z * Z :=
  let '(x, y, w, h) := roi_coords in
  let x := Z.max 0 (Z.min x (frame_width - 1)) in
  let y := Z.max 0 (Z.min y (frame_height - 1)) in
  let w := Z.max 1 (Z.min w (frame_width - x)) in
  let h := Z.max 1 (Z.min h (frame_height - y)) in
  (x, y, w, h).

Fixpoint ends_with_sep (s : string) : bool :=
  match s with
  | EmptyString => false
  | String c EmptyString => Ascii.eqb c "/"%char
  | String _ s' => ends_with_sep s'
  end.

(** [os.path.join(folder, filename)] for a relative [filename]. *)
Definition os_path_join (folder filename : string) : string :=
  if bool_decide (folder = EmptyString) then filename
  else if ends_with_sep folder then folder +:+ filename
  else folder +:+ "/" +:+ filename.

(** [create_video_writer(filename, fourcc, fps, frame_size, folder)].
    [folder_ok]: the folder is there, or [os.makedirs] makes it. With a
    folder named and [folder_ok] false, [os.makedirs] raises [OSError]
    and no writer is made: [None]. *)
Definition create_video_writer (filename folder : string)
    (folder_ok ok : bool) : option VideoWriter :=
  if negb (bool_decide (folder = EmptyString)) && negb folder_ok then None
  else Some (cv2_VideoWriter (os_path_join folder filename) ok).

(** The local variables of [main] that the loop changes. *)
Record state := mkState {
  clip_number : Z;
  out : option nat;
  date_folder : string;
  big_clip_out : VideoWriter;
  motion_detected : bool;
  motion_counter : Z;
  no_motion_counter : Z;
  frame_count : Z;
  email_sent : bool;
  writers : heap
}.

Definition set_clip_number v s :=
  mkState v (out s) (date_folder s) (big_clip_out s) (motion_detected s)
    (motion_counter s) (no_motion_counter s) (frame_count s) (email_sent s)
    (writers s).
Definition set_out v s :=
  mkState (clip_number s) v (date_folder s) (big_clip_out s)
    (motion_detected s) (motion_counter s) (no_motion_counter s)
    (frame_count s) (email_sent s) (writers s).
Definition set_date_folder v s :=
  mkState (clip_number s) (out s) v (big_clip_out s) (motion_detected s)
    (motion_counter s) (no_motion_counter s) (frame_count s) (email_sent s)
    (writers s).
Definition set_big_clip_out v s :=
  mkState (clip_number s) (out s) (date_folder s) v (motion_detected s)
    (motion_counter s) (no_motion_counter s) (frame_count s) (email_sent s)
    (writers s).
Definition set_motion_detected v s :=
  mkState (clip_number s) (out s) (date_folder s) (big_clip_out s) v
    (motion_counter s) (no_motion_counter s) (frame_count s) (email_sent s)
    (writers s).
Definition set_motion_counter v s :=
  mkState (clip_number s) (out s) (date_folder s) (big_clip_out s)
    (motion_detected s) v (no_motion_counter s) (frame_count s)
    (email_sent s) (writers s).
Definition set_no_motion_counter v s :=
  mkState (clip_number s) (out s) (date_folder s) (big_clip_out s)
    (motion_detected s) (motion_counter s) v (frame_count s) (email_sent s)
    (writers s).
Definition set_frame_count v s :=
  mkState (clip_number s) (out s) (date_folder s) (big_clip_out s)
    (motion_detected s) (motion_counter s) (no_motion_counter s) v
    (email_sent s) (writers s).
Definition set_email_sent v s :=
  mkState (clip_number s) (out s) (date_folder s) (big_clip_out s)
    (motion_detected s) (motion_counter s) (no_motion_counter s)
    (frame_count s) v (writers s).
Definition set_writers v s :=
  mkState (clip_number s) (out s) (date_folder s) (big_clip_out s)
    (motion_detected s) (motion_counter s) (no_motion_counter s)
    (frame_count s) (email_sent s) v.

(** Lines 151-176. A [cv2.VideoWriter] object is always true, so
    [if out:] asks whether [out] is a writer. The decision is [None]
    when [create_video_writer] raises: the clip number and the folder
    are set by then, [out] and [motion_detected] are not. *)
Definition detect (a : args) (c : capture) (folder_ok : bool) (s : state)
  : state * option Decision :=
  if motion c then
    let s := set_motion_counter (motion_counter s + 1) s in
    let s := set_no_motion_counter 0 s in
    if (a_motion_threshold a <? motion_counter s)
       && negb (motion_detected s)
    then
      let s := set_clip_number (clip_number s + 1) s in
      let s := set_date_folder (ymd c) s in
      let motion_filename :=
        "clip_" +:+ fmt_03d (clip_number s) +:+ "_" +:+ hms c +:+ ".mp4" in
      match create_video_writer motion_filename (date_folder s) folder_ok
              (open_ok c) with
      | None => (s, None)
      | Some w =>
          let s := set_out (Some (length (writers s)))
                     (set_writers (writers s ++ [w]) s) in
          let s := set_motion_detected true s in
          let s := if negb (email_sent s) then set_email_sent true s else s in
          (s, Some Start)
      end
    else (s, Some NoChange)
  else
    let s := set_no_motion_counter (no_motion_counter s + 1) s in
    if (a_no_motion_threshold a <? no_motion_counter s) && motion_detected s
    then
      let s := set_motion_detected false s in
      let s := match out s with
               | Some h =>
                   set_out None (set_writers (alter release h (writers s)) s)
               | None => s
               end in
      let s := set_motion_counter 0 s in
      (set_email_sent false s, Some Stop)
    else (s, Some NoChange).

(** Lines 178-181. *)
Definition record (f : frame) (s : state) : state :=
  let s := set_big_clip_out (write f (big_clip_out s)) s in
  match out s with
  | Some h =>
      if motion_detected s then set_writers (alter (write f) h (writers s)) s
      else s
  | None => s
  end.

(** Lines 131-187: one pass of the loop that read a frame, up to the key
    check. When [detect] raises, the rest of the pass is not run. *)
Definition body (a : args) (folder_ok : bool) (s : state) (c : capture)
  : state * option Decision :=
  let s := set_frame_count (frame_count s + 1) s in
  match detect a c folder_ok s with
  | (s, Some d) => (record (cap_frame c) s, Some d)
  | (s, None) => (s, None)
  end.

(** The pass with the folder in place, which then raises nothing
    ([main2_body_completes] below): its state and its decision. *)
Definition iteration (a : args) (s : state) (c : capture)
  : state * Decision :=
  let '(s, d) := body a true s c in (s, default NoChange d).

(** The [finally] block. *)
Definition teardown (s : state) : state :=
  let s := match out s with
           | Some h => set_writers (alter release h (writers s)) s
           | None => s
           end in
  set_big_clip_out (release (big_clip_out s)) s.

(** The [try] statement of lines 125-203. A failed read and the quit key
    leave the loop by [break]; a KeyboardInterrupt is caught and only
    reported; the [OSError] of [os.makedirs] is not caught and ends
    [main]. The [finally] block runs in all four cases. *)
Fixpoint loop (a : args) (s : state) (evs : list event) : state * status :=
  match evs with
  | [] => (s, Running)
  | NoFrame :: _ => (teardown s, Finished)
  | Interrupt :: _ => (teardown s, Finished)
  | Frame c folder_ok :: rest =>
      match body a folder_ok s c with
      | (s, None) => (teardown s, Raised OSError)
      | (s, Some _) =>
          if key_q c then (teardown s, Finished) else loop a s rest
      end
  end.

(** The frames the loop handles one after the other, none of them
    raising. *)
Fixpoint run (a : args) (s : state) (cs : list capture) : state :=
  match cs with
  | [] => s
  | c :: cs => run a (iteration a s c).1 cs
  end.

Fixpoint decisions (a : args) (s : state) (cs : list capture)
  : list Decision :=
  match cs with
  | [] => []
  | c :: cs => (iteration a s c).2 :: decisions a (iteration a s c).1 cs
  end.

(** Lines 110-123 past the creation of the full-session writer [big]. *)
Definition enter (ymd0 : string) (big : VideoWriter) : state :=
  mkState 1 None ymd0 big false 0 0 0 false [].

(** The state the loop is entered with when line 115 raised nothing. *)
Definition initial (ymd0 hms0 : string) (big_ok : bool) : state :=
  enter ymd0
    (cv2_VideoWriter (os_path_join ymd0 ("full_" +:+ hms0 +:+ ".mp4")) big_ok).

(** How [main] gets to its loop, or does not: [UsageExit] when
    [parse_arguments] ends the script, [IOError] when the camera does
    not open, [FolderError] when the folder of the day cannot be made
    (the [OSError] of line 115, which nothing catches); otherwise the
    thresholds, the region and the first state. *)
Inductive startup_result :=
  | UsageExit
  | IOError
  | FolderError
  | Session (a : args) (region : Z * Z * Z * Z) (s : state).

(** Lines 86-123, in the order of the source. *)
Definition startup (cl : cmdline) (camera_opened : bool)
    (ymd0 hms0 : string) (folder_ok big_ok : bool) : startup_result :=
  match parse_arguments cl with
  | None => UsageExit
  | Some a =>
      let '(width, height) := (640, 480) in
      if camera_opened then
        let region := validate_roi (a_roi a) width height in
        match create_video_writer ("full_" +:+ hms0 +:+ ".mp4") ymd0
                folder_ok big_ok with
        | None => FolderError
        | Some big => Session a region (enter ymd0 big)
        end
      else IOError
  end.

End Main2.

(** ** The recording logic the two scripts share

    Lines 85-115 of [main.py] and 151-181 of [main_2.py] differ in the
    names they give the clip files and in what else they keep;
    [core] is what they have in common, with the file names left out,
    and [core_step] what both do to it. That each script follows
    [core_step] is proved below, not assumed. *)

Record core := mkCore {
  k_clip_number : Z;
  k_motion_detected : bool;
  k_motion_counter : Z;
  k_no_motion_counter : Z;
  k_out : option nat;
  k_big : VideoWriter;
  k_writers : heap
}.

Definition anon (w : VideoWriter) : VideoWriter :=
  mkWriter EmptyString (opened w) (released w) (written w).

Definition core_record (f : frame) (k : core) : core :=
  let big := write f (k_big k) in
  match k_out k with
  | Some h =>
      mkCore (k_clip_number k) (k_motion_detected k) (k_motion_counter k)
        (k_no_motion_counter k) (k_out k) big
        (if k_motion_detected k then alter (write f) h (k_writers k)
         else k_writers k)
  | None =>
      mkCore (k_clip_number k) (k_motion_detected k) (k_motion_counter k)
        (k_no_motion_counter k) (k_out k) big (k_writers k)
  end.

Definition core_detect (thr nthr : Z) (c : capture) (k : core)
  : core * Decision :=
  if motion c then
    if (thr <? k_motion_counter k + 1) && negb (k_motion_detected k)
    then (mkCore (k_clip_number k + 1) true (k_motion_counter k + 1) 0
            (Some (length (k_writers k))) (k_big k)
            (k_writers k ++ [cv2_VideoWriter EmptyString (open_ok c)]),
          Start)
    else (mkCore (k_clip_number k) (k_motion_detected k)
            (k_motion_counter k + 1) 0 (k_out k) (k_big k) (k_writers k),
          NoChange)
  else
    if (nthr <? k_no_motion_counter k + 1) && k_motion_detected k
    then (mkCore (k_clip_number k) false 0 (k_no_motion_counter k + 1) None
            (k_big k)
            (match k_out k with
             | Some h => alter release h (k_writers k)
             | None => k_writers k
             end),
          Stop)
    else (mkCore (k_clip_number k) (k_motion_detected k) (k_motion_counter k)
            (k_no_motion_counter k + 1) (k_out k) (k_big k) (k_writers k),
          NoChange).

Definition core_step (thr nthr : Z) (k : core) (c : capture)
  : core * Decision :=
  let '(k, d) := core_detect thr nthr c k in
  (core_record (cap_frame c) k, d).

Fixpoint core_run (thr nthr : Z) (k : core) (cs : list capture) : core :=
  match cs with
  | [] => k
  | c :: cs => core_run thr nthr (core_step thr nthr k c).1 cs
  end.

Fixpoint core_decisions (thr nthr : Z) (k : core) (cs : list capture)
  : list Decision :=
  match cs with
  | [] => []
  | c :: cs =>
      (core_step thr nthr k c).2
        :: core_decisions thr nthr (core_step thr nthr k c).1 cs
  end.

Definition main_view (s : Main.state) : core :=
  mkCore (Main.clip_number s) (Main.motion_detected s)
    (Main.motion_counter s) (Main.no_motion_counter s) (Main.out s)
    (anon (Main.big_clip_out s)) (anon <$> Main.writers s).

Definition main2_view (s : Main2.state) : core :=
  mkCore (Main2.clip_number s) (Main2.motion_detected s)
    (Main2.motion_counter s) (Main2.no_motion_counter s) (Main2.out s)
    (anon (Main2.big_clip_out s)) (anon <$> Main2.writers s).

(** The state both scripts enter the loop with. *)
Definition core_initial (big_ok : bool) : core :=
  mkCore 1 false 0 0 None (cv2_VideoWriter EmptyString big_ok) [].

(** ** Vocabulary of the properties *)

(** The motion frames counted since the last [Stop], or since [acc] was
    the count. *)
Fixpoint tally (acc : Z) (ms : list bool) (ds : list Decision) : Z :=
  match ms, ds with
  | m :: ms, d :: ds =>
      tally (match d with
             | Stop => 0
             | _ => if m then acc + 1 else acc
             end) ms ds
  | _, _ => acc
  end.

(** The last [n] entries of [ms] exist and all are motion frames. *)
Definition ends_in_motion (n : nat) (ms : list bool) : bool :=
  bool_decide (n ≤ length ms)%nat && forallb id (drop (length ms - n) ms).

(** The rule for [Start] as the specification words it: a clip starts at
    a frame exactly when no clip was being recorded and the last
    [thr + 1] frames, this one included, all showed motion. [idle] is
    the mode before the frame, [ms] the motion flags up to and including
    it, [d] what the frame decided. *)
Definition start_iff_consecutive (thr : Z) (idle : bool) (ms : list bool)
    (d : Decision) : Prop :=
  d = Start <-> idle = true /\ ends_in_motion (Z.to_nat (thr + 1)) ms = true.

(** The update of the counters as the specification words it: a motion
    frame adds one to the motion run and resets the quiet run, a frame
    without motion adds one to the quiet run and resets the motion run.
    Unprimed values are those before the frame. *)
Definition counters_as_specified (m : bool)
    (motion_run quiet_run motion_run' quiet_run' : Z) : Prop :=
  if m then motion_run' = motion_run + 1 /\ quiet_run' = 0
  else quiet_run' = quiet_run + 1 /\ motion_run' = 0.

(** What the specification says of the counters after a frame: at most
    one of the two is not zero. *)
Definition counters_exclusive (motion_run quiet_run : Z) : Prop :=
  motion_run = 0 \/ quiet_run = 0.

(** The clip writers and the mode agree: without a handle nothing is
    recorded and every writer is released; with a handle a clip is
    recorded, the handle is the newest writer, and that one alone is not
    released. *)
Definition clip_inv (k : core) : Prop :=
  match k_out k with
  | None =>
      k_motion_detected k = false
      /\ Forall (fun w => released w = true) (k_writers k)
  | Some h =>
      k_motion_detected k = true
      /\ exists ws w,
           k_writers k = ws ++ [w] /\ h = length ws
           /\ Forall (fun w => released w = true) ws
           /\ released w = false
  end.

(** Whether the writer with handle [h] was opened. *)
Definition opened_at (ws : heap) (h : nat) : bool :=
  default false (opened <$> ws !! h).

(** What the specification says of the mode and the clip sink: a clip is
    being recorded exactly when [out] is a writer that is open.
    [recording] is [motion_detected], [ws] are the clip writers. *)
Definition mode_matches_sink (recording : bool) (out : option nat)
    (ws : heap) : Prop :=
  recording = true
  <-> exists h w, out = Some h /\ ws !! h = Some w /\ live w = true.

(** The file names the scripts give the clip with number [n] started at
    capture [c]. *)
Definition main_clip_name (n : Z) (c : capture) : string :=
  "clip_" +:+ fmt_03d n +:+ "_" +:+ ymd c +:+ "_" +:+ hms c +:+ ".mp4".

Definition main2_clip_path (n : Z) (c : capture) : string :=
  Main2.os_path_join (ymd c)
    ("clip_" +:+ fmt_03d n +:+ "_" +:+ hms c +:+ ".mp4").

(** What the specification says of a clip writer that does not open:
    the frame that started the clip leaves the logic idle. [d] is what
    the frame decided, [ok] whether the writer opened, [recording] the
    mode after the frame. *)
Definition failed_open_reverts (d : Decision) (ok recording : bool) : Prop :=
  d = Start -> ok = false -> recording = false.

(** A region inside a [W] x [H] frame. *)
Definition roi_valid (r : Z * Z * Z * Z) (W H : Z) : bool :=
  let '(x, y, w, h) := r in
  (0 <=? x) && (0 <=? y) && (1 <=? w) && (1 <=? h)
  && (x + w <=? W) && (y + h <=? H).

(** The thresholds and the region of a command line are acceptable:
    the region lies in the 640 x 480 frame and no threshold is negative. *)
Definition config_valid (a : Main2.args) : bool :=
  roi_valid (Main2.a_roi a) 640 480
  && (0 <=? Main2.a_motion_threshold a)
  && (0 <=? Main2.a_no_motion_threshold a).

(** What the specification says of a command line whose thresholds and
    region are not acceptable: no session starts from it, whatever the
    camera and the file system do. *)
Definition invalid_config_rejected (cl : Main2.cmdline) : Prop :=
  forall a, Main2.parse_arguments cl = Some a -> config_valid a = false ->
  forall camera_opened ymd0 hms0 folder_ok big_ok,
    match Main2.startup cl camera_opened ymd0 hms0 folder_ok big_ok with
    | Main2.Session _ _ _ => False
    | _ => True
    end.

(** The captures the camera gives a loop before the loop is left by a
    failed read, by an interrupt or by the quit key; the capture with
    the quit key is the last of them. [main.py] handles each of them to
    the end. *)
Fixpoint handled (evs : list event) : list capture :=
  match evs with
  | Frame c _ :: rest => c :: (if key_q c then [] else handled rest)
  | _ => []
  end.

(** A folder is named, and it is neither there nor can it be made: the
    case in which [os.makedirs] raises. *)
Definition no_folder (folder : string) (folder_ok : bool) : bool :=
  negb (bool_decide (folder = EmptyString)) && negb folder_ok.

(** The captures [main_2.py] handles to the end, from state [s]: those
    of [handled evs] before the first one that would start a clip while
    the folder of its day is missing. *)
Fixpoint completed (a : Main2.args) (s : Main2.state) (evs : list event)
  : list capture :=
  match evs with
  | Frame c folder_ok :: rest =>
      if bool_decide ((Main2.iteration a s c).2 = Start)
         && no_folder (ymd c) folder_ok
      then []
      else c :: (if key_q c then []
                 else completed a (Main2.iteration a s c).1 rest)
  | _ => []
  end.

(** What the specification says of the full-session file: it holds the
    frames the session read, each once, in the order read. *)
Definition holds_every_frame (read file : list frame) : Prop :=
  file = read.

(** The reference image [ref] is the one derived from the frame [f],
    cropped to the region of [main.py]: each of its pixels is the pixel
    of [gray f] 150 rows further down and 250 columns further right,
    within 200 rows and 200 columns, and it has no other pixels. [gray]
    is the conversion to a blurred gray image. The specification says
    this of a new reference image and the frame the camera gave. *)
Definition baseline_from (gray : frame -> image) (f : frame) (ref : image)
  : Prop :=
  forall i j : nat,
    pixel_at ref i j
    = if (i <? 200)%nat && (j <? 200)%nat
      then pixel_at (gray f) (150 + i) (250 + j)
      else None.

(** The captures at which a clip was started. *)
Fixpoint started (cs : list capture) (ds : list Decision) : list capture :=
  match cs, ds with
  | c :: cs, Start :: ds => c :: started cs ds
  | _ :: cs, _ :: ds => started cs ds
  | _, _ => []
  end.

(** Stand-ins for the two OpenCV operations in closed examples of the
    recording logic, which does not look at what they return. *)
Definition gray_blur0 : frame -> image := fun _ => [].
Definition rectangle0 : frame -> Z * Z -> Z * Z -> frame := fun f _ _ => f.

(** Stand-ins that look at the pixels, for the examples of the reference
    image: the gray value of a pixel is the sum of its channels, without
    blur, and the rectangle is an outline one pixel wide in red; [p] and
    [q] are its corners as (column, row). *)
Definition gray1 (f : frame) : image :=
  (fun row : list pixel =>
     (fun px : pixel => let '(b, g, r) := px in b + g + r) <$> row) <$> f.

Definition on_outline (p q : Z * Z) (row col : Z) : bool :=
  let '(x0, y0) := p in
  let '(x1, y1) := q in
  (x0 <=? col) && (col <=? x1) && (y0 <=? row) && (row <=? y1)
  && ((col =? x0) || (col =? x1) || (row =? y0) || (row =? y1)).

Fixpoint paint_row (p q : Z * Z) (row col : Z) (r : list pixel)
  : list pixel :=
  match r with
  | [] => []
  | px :: r' =>
      (if on_outline p q row col then (0, 0, 255) else px)
        :: paint_row p q row (col + 1) r'
  end.

Fixpoint paint_rows (p q : Z * Z) (row : Z) (f : frame) : frame :=
  match f with
  | [] => []
  | r :: f' => paint_row p q row 0 r :: paint_rows p q (row + 1) f'
  end.

Definition outline1 (f : frame) (p q : Z * Z) : frame := paint_rows p q 0 f.

(** A frame of 480 rows of 640 pixels, all of the gray tone [v], and the
    capture of it; [m] is the motion flag. *)
Definition scene (v : Z) : frame := replicate 480 (replicate 640 (v, v, v)).

Definition shot (v : Z) (m : bool) : capture :=
  mkCapture (scene v) m "20240101" "120000" true false.

(** A capture with an empty frame; [m] is the motion flag. *)
Definition cap (m : bool) : capture :=
  mkCapture [] m "20240101" "120000" true false.

(** A motion frame at which a clip writer would not open. *)
Definition T_unwritable : capture :=
  mkCapture [] true "20240101" "120000" false false.

(** A motion frame just after midnight: its clip goes to a new folder. *)
Definition T_next_day : capture :=
  mkCapture [] true "20240102" "000001" true false.

Definition T : capture := cap true.
Definition F : capture := cap false.

(** Thresholds 2 and 2 for either script, and the states the sessions of
    the examples begin with. *)
Definition cfg22 : config := mkConfig 2 2 300.
Definition args22 : Main2.args := Main2.mkArgs 2 2 500 (250, 150, 200, 200).
Definition main_start : Main.state :=
  Main.initial gray_blur0 [] "20240101_120000" true.
Definition main2_start : Main2.state :=
  Main2.initial "20240101" "120000" true.

(** ** Vocabulary of the further properties *)

(** The last [n] entries of [ms] exist and none is a motion frame. *)
Definition ends_in_quiet (n : nat) (ms : list bool) : bool :=
  bool_decide (n ≤ length ms)%nat
  && forallb negb (drop (length ms - n) ms).

(** The frames without motion since the last motion frame, counted on
    from [acc]. *)
Fixpoint quiet_count (acc : Z) (ms : list bool) : Z :=
  match ms with
  | [] => acc
  | m :: ms => quiet_count (if m then 0 else acc + 1) ms
  end.

(** Starts and stops take turns in [ds], beginning with a start when
    [recording] is false and with a stop when it is true. *)
Fixpoint alternates (recording : bool) (ds : list Decision) : bool :=
  match ds with
  | [] => true
  | Start :: ds => negb recording && alternates true ds
  | Stop :: ds => recording && alternates false ds
  | NoChange :: ds => alternates recording ds
  end.

Definition count_of (d : Decision) (ds : list Decision) : nat :=
  length (filter (fun d' => d' = d) ds).

(** The frames each clip gets, clip by clip: a start opens a clip with
    its frame, a frame that decides nothing goes to the clip that is
    open, and the frame of a stop goes to none. [acc] are the clips so
    far, the last of them open when [recording]. *)
Fixpoint segments (recording : bool) (acc : list (list frame))
    (cs : list capture) (ds : list Decision) : list (list frame) :=
  match cs, ds with
  | c :: cs, Start :: ds => segments true (acc ++ [[cap_frame c]]) cs ds
  | _ :: cs, Stop :: ds => segments false acc cs ds
  | c :: cs, NoChange :: ds =>
      segments recording
        (if recording
         then alter (fun l => l ++ [cap_frame c]) (length acc - 1)%nat acc
         else acc)
        cs ds
  | _, _ => acc
  end.

(** Whether [evs] holds a failed read, an interrupt or the quit key:
    what ends the loop of either script, if nothing ended it before. *)
Fixpoint ended (evs : list event) : bool :=
  match evs with
  | [] => false
  | Frame c _ :: rest => key_q c || ended rest
  | _ => true
  end.

(** How [evs] leaves the loop of [main.py]. *)
Fixpoint main_exit (evs : list event) : status :=
  match evs with
  | [] => Running
  | NoFrame :: _ => Finished
  | Interrupt :: _ => Raised KeyboardInterrupt
  | Frame c _ :: rest => if key_q c then Finished else main_exit rest
  end.

(** The calls of [camera.read()] in the loop that returned, with a frame
    or without. *)
Fixpoint attempts (evs : list event) : nat :=
  match evs with
  | [] => 0
  | NoFrame :: _ => 1
  | Interrupt :: _ => 0
  | Frame c _ :: rest => S (if key_q c then 0 else attempts rest)
  end.

(** No interrupt in [evs], and no frame whose folder is missing. *)
Definition undisturbed (evs : list event) : bool :=
  forallb (fun e => match e with
                    | Frame c folder_ok => negb (no_folder (ymd c) folder_ok)
                    | NoFrame => true
                    | Interrupt => false
                    end) evs.

(** What the two scripts have in common apart from file names and from
    whether the full-session writer opened. *)
Definition common (k : core)
  : Z * bool * Z * Z * option nat * bool * list frame * heap :=
  (k_clip_number k, k_motion_detected k, k_motion_counter k,
   k_no_motion_counter k, k_out k, released (k_big k), written (k_big k),
   k_writers k).

(** An array of [H] rows of [W] entries. *)
Definition has_size {A} (W H : Z) (img : list (list A)) : Prop :=
  Z.of_nat (length img) = H
  /\ Forall (fun row => Z.of_nat (length row) = W) img.

(** The capture whose frame the reference image of [main.py] comes from
    after [cs]: the latest one whose number, counted from one, is a
    multiple of [interval]; [None] when there is none yet. *)
Definition reference_source (interval : Z) (cs : list capture)
  : option capture :=
  let q := Z.of_nat (length cs) `div` interval in
  if q =? 0 then None else cs !! Z.to_nat (q * interval - 1).

(** Strings of decimal digits. *)
Definition is_digit (c : ascii) : bool :=
  (48 <=? nat_of_ascii c)%nat && (nat_of_ascii c <=? 57)%nat.

Fixpoint all_digits (s : string) : bool :=
  match s with
  | EmptyString => true
  | String c s' => is_digit c && all_digits s'
  end.

(** A clip that was stopped holds at least [nthr + 1] frames and at
    least one; the clip being recorded holds more frames than the
    no-motion counter counts. *)
Definition long_enough (nthr : Z) (w : VideoWriter) : Prop :=
  released w = true -> Z.max 1 (nthr + 1) <= Z.of_nat (length (written w)).

Definition clip_len_inv (nthr : Z) (k : core) : Prop :=
  Forall (long_enough nthr) (k_writers k)
  /\ Forall (fun w => released w = false ->
                      Z.max 1 (k_no_motion_counter k + 1)
                      <= Z.of_nat (length (written w))) (k_writers k).

(** ** The scripts follow the shared logic *)

Lemma anon_write f w : anon (write f w) = write f (anon w).
Proof. destruct w as [p o [] fs]; reflexivity. Qed.

Lemma anon_release w : anon (release w) = release (anon w).
Proof. done. Qed.

Lemma anon_alter_write f h (ws : heap) :
  anon <$> alter (write f) h ws = alter (write f) h (anon <$> ws).
Proof.
  apply list_fmap_alter, Forall_forall. intros w _. apply anon_write.
Qed.

Lemma anon_alter_release h (ws : heap) :
  anon <$> alter release h ws = alter release h (anon <$> ws).
Proof.
  apply list_fmap_alter, Forall_forall. intros w _. apply anon_release.
Qed.

Ltac split_ifs :=
  repeat match goal with
         | |- context [if ?b then _ else _] => destruct b eqn:?; simpl
         | |- context [match ?o with Some _ => _ | None => _ end] =>
             destruct o eqn:?; simpl
         end.

Section MainFollows.

Variable gray_blur : frame -> image.
Variable cv2_rectangle : frame -> Z * Z -> Z * Z -> frame.

#[local] Abbreviation iteration := (Main.iteration gray_blur cv2_rectangle).
#[local] Abbreviation run := (Main.run gray_blur cv2_rectangle).
#[local] Abbreviation decisions := (Main.decisions gray_blur cv2_rectangle).

Lemma main_step_view cfg s c :
  main_view (iteration cfg s c).1
  = (core_step (motion_threshold cfg) (no_motion_threshold cfg)
       (main_view s) c).1
  /\ decision (iteration cfg s c).2
     = (core_step (motion_threshold cfg) (no_motion_threshold cfg)
          (main_view s) c).2.
Proof.
  destruct s as [cn md mc nmc o fc ref big ws].
  unfold Main.iteration, Main.on_frame, Main.refresh, Main.detect,
    Main.record, core_step, core_detect, core_record, main_view.
  simpl. split_ifs; simpl;
    rewrite ?anon_write, ?anon_alter_write, ?anon_alter_release, ?fmap_app,
      ?length_fmap; try done.
Qed.

Lemma main_run_view cfg cs : forall s,
  main_view (run cfg s cs)
  = core_run (motion_threshold cfg) (no_motion_threshold cfg)
      (main_view s) cs.
Proof.
  induction cs as [|c cs IH]; intros s; simpl; [done|].
  rewrite IH. by destruct (main_step_view cfg s c) as [-> _].
Qed.

Lemma main_decisions_view cfg cs : forall s,
  decisions cfg s cs
  = core_decisions (motion_threshold cfg) (no_motion_threshold cfg)
      (main_view s) cs.
Proof.
  unfold Main.decisions.
  induction cs as [|c cs IH]; intros s; simpl; [done|].
  destruct (main_step_view cfg s c) as [Hs Hd].
  by rewrite IH, Hs, Hd.
Qed.

Lemma main_initial_view f0 stamp ok :
  main_view (Main.initial gray_blur f0 stamp ok) = core_initial ok.
Proof. done. Qed.

End MainFollows.

Lemma create_video_writer_ok filename folder ok :
  Main2.create_video_writer filename folder true ok
  = Some (cv2_VideoWriter (Main2.os_path_join folder filename) ok).
Proof. unfold Main2.create_video_writer. by rewrite andb_false_r. Qed.

Lemma main2_step_view a s c :
  main2_view (Main2.iteration a s c).1
  = (core_step (Main2.a_motion_threshold a) (Main2.a_no_motion_threshold a)
       (main2_view s) c).1
  /\ (Main2.iteration a s c).2
     = (core_step (Main2.a_motion_threshold a)
          (Main2.a_no_motion_threshold a) (main2_view s) c).2.
Proof.
  destruct s as [cn o df big md mc nmc fc es ws].
  unfold Main2.iteration, Main2.body, Main2.detect, Main2.record,
    core_step, core_detect, core_record, main2_view.
  simpl. rewrite ?create_video_writer_ok. split_ifs; simpl;
    rewrite ?anon_write, ?anon_alter_write, ?anon_alter_release, ?fmap_app,
      ?length_fmap; try done.
Qed.

Lemma main2_run_view a cs : forall s,
  main2_view (Main2.run a s cs)
  = core_run (Main2.a_motion_threshold a) (Main2.a_no_motion_threshold a)
      (main2_view s) cs.
Proof.
  induction cs as [|c cs IH]; intros s; simpl; [done|].
  rewrite IH. by destruct (main2_step_view a s c) as [-> _].
Qed.

Lemma main2_decisions_view a cs : forall s,
  Main2.decisions a s cs
  = core_decisions (Main2.a_motion_threshold a)
      (Main2.a_no_motion_threshold a) (main2_view s) cs.
Proof.
  induction cs as [|c cs IH]; intros s; simpl; [done|].
  destruct (main2_step_view a s c) as [Hs Hd].
  by rewrite IH, Hs, Hd.
Qed.

Lemma main2_initial_view ymd0 hms0 ok :
  main2_view (Main2.initial ymd0 hms0 ok) = core_initial ok.
Proof. done. Qed.

(** ** Properties of the shared logic *)

Section Core.

Variables thr nthr : Z.

#[local] Abbreviation step := (core_step thr nthr).
#[local] Abbreviation krun := (core_run thr nthr).
#[local] Abbreviation kdecisions := (core_decisions thr nthr).

Lemma core_step_decision k c :
  (step k c).2
  = if motion c
    then if (thr <? k_motion_counter k + 1) && negb (k_motion_detected k)
         then Start else NoChange
    else if (nthr <? k_no_motion_counter k + 1) && k_motion_detected k
         then Stop else NoChange.
Proof. unfold core_step, core_detect. by split_ifs. Qed.

Lemma core_step_counters k c :
  k_motion_counter (step k c).1
  = match (step k c).2 with
    | Stop => 0
    | _ => if motion c then k_motion_counter k + 1 else k_motion_counter k
    end
  /\ k_no_motion_counter (step k c).1
     = if motion c then 0 else k_no_motion_counter k + 1.
Proof.
  unfold core_step, core_detect, core_record. by split_ifs.
Qed.

Lemma core_step_mode k c :
  k_motion_detected (step k c).1
  = match (step k c).2 with
    | Start => true
    | Stop => false
    | NoChange => k_motion_detected k
    end
  /\ k_clip_number (step k c).1
     = match (step k c).2 with
       | Start => k_clip_number k + 1
       | _ => k_clip_number k
       end.
Proof.
  unfold core_step, core_detect, core_record. by split_ifs.
Qed.

Lemma core_start_iff k c :
  (step k c).2 = Start
  <-> k_motion_detected k = false /\ motion c = true
      /\ thr < k_motion_counter k + 1.
Proof.
  rewrite core_step_decision.
  destruct (motion c), (k_motion_detected k),
    (Z.ltb_spec thr (k_motion_counter k + 1));
    simpl; split_ifs; (split; [intros ?|intros (? & ? & ?)]);
    done || lia.
Qed.

Lemma core_stop_iff k c :
  (step k c).2 = Stop
  <-> k_motion_detected k = true /\ motion c = false
      /\ nthr < k_no_motion_counter k + 1.
Proof.
  rewrite core_step_decision.
  destruct (motion c), (k_motion_detected k),
    (Z.ltb_spec nthr (k_no_motion_counter k + 1));
    simpl; split_ifs; (split; [intros ?|intros (? & ? & ?)]);
    done || lia.
Qed.

Lemma core_run_app cs1 : forall k cs2,
  krun k (cs1 ++ cs2) = krun (krun k cs1) cs2.
Proof. induction cs1 as [|c cs1 IH]; intros; simpl; [done|apply IH]. Qed.

Lemma core_decisions_app cs1 : forall k cs2,
  kdecisions k (cs1 ++ cs2) = kdecisions k cs1 ++ kdecisions (krun k cs1) cs2.
Proof.
  induction cs1 as [|c cs1 IH]; intros; simpl; [done|by rewrite IH].
Qed.

Lemma core_decisions_length cs : forall k, length (kdecisions k cs) = length cs.
Proof. induction cs as [|c cs IH]; intros; simpl; [done|by rewrite IH]. Qed.

(** The motion counter is the tally of motion frames since the last
    [Stop]. *)
Lemma core_counter_tally cs : forall k,
  k_motion_counter (krun k cs)
  = tally (k_motion_counter k) (motion <$> cs) (kdecisions k cs).
Proof.
  induction cs as [|c cs IH]; intros k; simpl; [done|].
  rewrite IH. by destruct (core_step_counters k c) as [-> _].
Qed.

Lemma tally_nonneg cs : forall k acc,
  0 <= acc -> 0 <= tally acc (motion <$> cs) (kdecisions k cs).
Proof.
  induction cs as [|c cs IH]; intros k acc Hacc; simpl; [done|].
  apply IH. destruct (step k c).2, (motion c); lia.
Qed.

Lemma tally_all_motion cs : forall k acc,
  forallb id (motion <$> cs) = true ->
  tally acc (motion <$> cs) (kdecisions k cs) = acc + Z.of_nat (length cs).
Proof.
  induction cs as [|c cs IH]; intros k acc Hall; simpl in *; [lia|].
  apply andb_prop in Hall as [Hc Hall]. unfold id in Hc.
  rewrite IH by done.
  pose proof (core_stop_iff k c) as Hstop.
  destruct (step k c).2; rewrite ?Hc; try lia.
  destruct Hstop as [Hstop _]. destruct (Hstop eq_refl) as (_ & ? & _).
  congruence.
Qed.

Lemma tally_ge_run cs : forall k acc (j : nat),
  0 <= acc -> (j <= length cs)%nat ->
  forallb id (drop (length cs - j) (motion <$> cs)) = true ->
  Z.of_nat j <= tally acc (motion <$> cs) (kdecisions k cs).
Proof.
  induction cs as [|c cs IH]; intros k acc j Hacc Hj Hall; simpl in *.
  - lia.
  - destruct (decide (j <= length cs)%nat) as [Hle|Hgt].
    + replace (S (length cs) - j)%nat with (S (length cs - j)) in Hall by lia.
      simpl in Hall. apply IH; [|done|done].
      destruct (step k c).2, (motion c); lia.
    + assert (j = S (length cs)) as -> by lia.
      replace (S (length cs) - S (length cs))%nat with 0%nat in Hall by lia.
      rewrite drop_0 in Hall.
      pose proof (tally_all_motion (c :: cs) k acc Hall) as Ht.
      simpl in Ht. rewrite Ht. lia.
Qed.

End Core.

Lemma ends_in_motion_snoc (n : nat) (ms : list bool) (m : bool) :
  ends_in_motion (S n) (ms ++ [m]) = true ->
  m = true /\ (n <= length ms)%nat
  /\ forallb id (drop (length ms - n) ms) = true.
Proof.
  unfold ends_in_motion. rewrite length_app. simpl.
  intros [Hn Hall]%andb_prop. apply bool_decide_eq_true in Hn.
  replace (length ms + 1 - S n)%nat with (length ms - n)%nat in Hall by lia.
  rewrite drop_app_le in Hall by lia.
  rewrite forallb_app in Hall. apply andb_prop in Hall as [Hms Hm].
  simpl in Hm. destruct m; [|done]. split; [done|]. split; [lia|done].
Qed.

(** The start rule of the shared logic: a clip starts exactly when none
    is recorded, the frame shows motion and the motion frames counted
    since the last [Stop] exceed the threshold; an unbroken run of
    [thr + 1] motion frames is enough for that. *)
Lemma core_start_rule thr nthr ok cs c :
  let k := core_run thr nthr (core_initial ok) cs in
  let ds := core_decisions thr nthr (core_initial ok) cs in
  ((core_step thr nthr k c).2 = Start
   <-> k_motion_detected k = false /\ motion c = true
       /\ thr < tally 0 (motion <$> cs) ds + 1)
  /\ (k_motion_detected k = false -> motion c = true ->
      ends_in_motion (Z.to_nat (thr + 1)) ((motion <$> cs) ++ [motion c])
      = true ->
      (core_step thr nthr k c).2 = Start).
Proof.
  intros k ds.
  assert (k_motion_counter k = tally 0 (motion <$> cs) ds) as Hmc
    by apply (core_counter_tally thr nthr cs (core_initial ok)).
  split.
  - rewrite core_start_iff, Hmc. done.
  - intros Hidle Hc Hrun. apply core_start_iff.
    split; [done|]. split; [done|]. rewrite Hmc.
    destruct (Z.to_nat (thr + 1)) as [|n] eqn:Hn.
    + pose proof (tally_nonneg thr nthr cs (core_initial ok) 0 ltac:(lia)).
      fold ds in H. lia.
    + apply ends_in_motion_snoc in Hrun as (_ & Hle & Hall).
      rewrite length_fmap in Hle, Hall.
      pose proof (tally_ge_run thr nthr cs (core_initial ok) 0 n
                    ltac:(lia) Hle Hall).
      fold ds in H. lia.
Qed.

(** Motion frames that do not take the counter past the threshold leave
    the logic idle, and likewise for frames without motion while a clip
    is recorded. *)
Lemma core_motion_below thr nthr (j : nat) : forall k,
  k_motion_detected k = false ->
  k_motion_counter k + Z.of_nat j <= thr ->
  core_decisions thr nthr k (replicate j T) = replicate j NoChange
  /\ k_motion_detected (core_run thr nthr k (replicate j T)) = false
  /\ k_motion_counter (core_run thr nthr k (replicate j T))
     = k_motion_counter k + Z.of_nat j.
Proof.
  induction j as [|j IH]; intros k Hmd Hmc; simpl.
  - split; [done|]. split; [done|lia].
  - destruct (core_step_counters thr nthr k T) as [Hc _].
    destruct (core_step_mode thr nthr k T) as [Hm _].
    assert ((core_step thr nthr k T).2 = NoChange) as Hd.
    { rewrite core_step_decision. simpl.
      destruct (Z.ltb_spec thr (k_motion_counter k + 1)); [lia|done]. }
    rewrite Hd in *. simpl in Hc.
    destruct (IH (core_step thr nthr k T).1) as (-> & -> & ->);
      [congruence|lia|].
    split; [done|]. split; [done|lia].
Qed.

Lemma core_quiet_below thr nthr (j : nat) : forall k,
  k_motion_detected k = true ->
  k_no_motion_counter k + Z.of_nat j <= nthr ->
  core_decisions thr nthr k (replicate j F) = replicate j NoChange
  /\ k_motion_detected (core_run thr nthr k (replicate j F)) = true
  /\ k_no_motion_counter (core_run thr nthr k (replicate j F))
     = k_no_motion_counter k + Z.of_nat j.
Proof.
  induction j as [|j IH]; intros k Hmd Hmc; simpl.
  - split; [done|]. split; [done|lia].
  - destruct (core_step_counters thr nthr k F) as [_ Hc].
    destruct (core_step_mode thr nthr k F) as [Hm _].
    assert ((core_step thr nthr k F).2 = NoChange) as Hd.
    { rewrite core_step_decision. simpl.
      destruct (Z.ltb_spec nthr (k_no_motion_counter k + 1)); [lia|done]. }
    rewrite Hd in *. simpl in Hc.
    destruct (IH (core_step thr nthr k F).1) as (-> & -> & ->);
      [congruence|lia|].
    split; [done|]. split; [done|lia].
Qed.

(** With thresholds [n] and [m], [n + 1] motion frames followed by
    [m + 1] frames without motion start a clip at the last motion frame
    and stop it at the last frame, and decide nothing before. *)
Lemma core_thresholds_strict (n m : nat) ok :
  core_decisions (Z.of_nat n) (Z.of_nat m) (core_initial ok)
    (replicate n T ++ [T] ++ replicate m F ++ [F])
  = replicate n NoChange ++ [Start] ++ replicate m NoChange ++ [Stop].
Proof.
  set (thr := Z.of_nat n). set (nthr := Z.of_nat m).
  destruct (core_motion_below thr nthr n (core_initial ok))
    as (Hd1 & Hm1 & Hc1); [done|simpl; lia|].
  rewrite core_decisions_app, Hd1. f_equal.
  set (k1 := core_run thr nthr (core_initial ok) (replicate n T)) in *.
  assert ((core_step thr nthr k1 T).2 = Start) as Hs.
  { apply core_start_iff. split; [done|]. split; [done|].
    rewrite Hc1. simpl. lia. }
  simpl. rewrite Hs. f_equal.
  set (k2 := (core_step thr nthr k1 T).1).
  destruct (core_step_counters thr nthr k1 T) as [_ Hn2].
  destruct (core_step_mode thr nthr k1 T) as [Hm2 _].
  rewrite Hs in Hm2. simpl in Hn2. fold k2 in Hn2, Hm2.
  destruct (core_quiet_below thr nthr m k2) as (Hd3 & Hm3 & Hc3);
    [done|lia|].
  rewrite core_decisions_app, Hd3. f_equal. simpl. f_equal.
  apply core_stop_iff. split; [done|]. split; [done|]. lia.
Qed.

Lemma alter_last {A} (g : A -> A) (ws : list A) (w : A) :
  alter g (length ws) (ws ++ [w]) = ws ++ [g w].
Proof.
  replace (length ws) with (length ws + 0)%nat by lia.
  by rewrite (alter_app_r g ws [w] 0).
Qed.

Lemma released_write f w : released (write f w) = released w.
Proof. by destruct w as [p o [] fs]. Qed.

Lemma clip_inv_initial ok : clip_inv (core_initial ok).
Proof. split; [done|constructor]. Qed.

Lemma clip_inv_step thr nthr k c :
  clip_inv k -> clip_inv (core_step thr nthr k c).1.
Proof.
  destruct k as [cn md mc nmc o big ws].
  unfold clip_inv, core_step, core_detect, core_record. simpl.
  destruct o as [h|]; simpl.
  - intros (-> & ws0 & w & -> & -> & Hrel & Hw).
    rewrite andb_false_r, andb_true_r.
    destruct (motion c); simpl.
    + split; [done|]. exists ws0, (write (cap_frame c) w).
      rewrite alter_last, released_write. done.
    + destruct (nthr <? nmc + 1); simpl.
      * split; [done|]. rewrite alter_last.
        apply Forall_app. split; [done|]. by repeat constructor.
      * split; [done|]. exists ws0, (write (cap_frame c) w).
        rewrite alter_last, released_write. done.
  - intros (-> & Hrel). rewrite andb_true_r, andb_false_r.
    destruct (motion c); simpl; [|done].
    destruct (thr <? mc + 1); simpl; [|done].
    split; [done|].
    exists ws, (write (cap_frame c) (cv2_VideoWriter EmptyString (open_ok c))).
    rewrite alter_last. done.
Qed.

Lemma clip_inv_run thr nthr cs : forall k,
  clip_inv k -> clip_inv (core_run thr nthr k cs).
Proof.
  induction cs as [|c cs IH]; intros k Hk; simpl; [done|].
  by apply IH, clip_inv_step.
Qed.

Lemma held_from_released i (ws : heap) :
  Forall (fun w => released w = true) ws -> held_from i ws = [].
Proof.
  intros H. revert i. induction H as [|w ws Hw _ IH]; intros i; simpl; [done|].
  unfold held. rewrite Hw. simpl. apply IH.
Qed.

Lemma open_from_released i (ws : heap) :
  Forall (fun w => released w = true) ws -> open_from i ws = [].
Proof.
  intros H. revert i. induction H as [|w ws Hw _ IH]; intros i; simpl; [done|].
  unfold live. rewrite Hw, andb_false_r. simpl. apply IH.
Qed.

Lemma held_from_app i (ws1 ws2 : heap) :
  held_from i (ws1 ++ ws2)
  = held_from i ws1 ++ held_from (i + length ws1) ws2.
Proof.
  revert i. induction ws1 as [|w ws1 IH]; intros i; simpl.
  - by rewrite Nat.add_0_r.
  - rewrite IH, <- app_assoc. do 3 f_equal. lia.
Qed.

Lemma open_from_app i (ws1 ws2 : heap) :
  open_from i (ws1 ++ ws2)
  = open_from i ws1 ++ open_from (i + length ws1) ws2.
Proof.
  revert i. induction ws1 as [|w ws1 IH]; intros i; simpl.
  - by rewrite Nat.add_0_r.
  - rewrite IH, <- app_assoc. do 3 f_equal. lia.
Qed.

Lemma held_handles_anon (ws : heap) :
  held_handles (anon <$> ws) = held_handles ws.
Proof.
  unfold held_handles. generalize 0%nat.
  induction ws as [|w ws IH]; intros i; simpl; [done|]. by rewrite IH.
Qed.

Lemma open_handles_anon (ws : heap) :
  open_handles (anon <$> ws) = open_handles ws.
Proof.
  unfold open_handles. generalize 0%nat.
  induction ws as [|w ws IH]; intros i; simpl; [done|]. by rewrite IH.
Qed.

Lemma opened_at_anon (ws : heap) h : opened_at (anon <$> ws) h = opened_at ws h.
Proof.
  unfold opened_at. rewrite list_lookup_fmap. by destruct (ws !! h).
Qed.

(** What [clip_inv] gives about the handles: the mode follows [out],
    the writer [out] refers to is the only one not released, and it is
    the only open one if it was opened at all. *)
Lemma clip_inv_handles k :
  clip_inv k ->
  k_motion_detected k = bool_decide (is_Some (k_out k))
  /\ held_handles (k_writers k) = option_list (k_out k)
  /\ open_handles (k_writers k)
     = match k_out k with
       | Some h => if opened_at (k_writers k) h then [h] else []
       | None => []
       end
  /\ (length (held_handles (k_writers k)) <= 1)%nat
  /\ (length (open_handles (k_writers k)) <= 1)%nat.
Proof.
  unfold clip_inv, held_handles, open_handles, opened_at.
  destruct (k_out k) as [h|]; simpl.
  - intros (-> & ws & w & -> & -> & Hrel & Hw).
    rewrite held_from_app, open_from_app, held_from_released,
      open_from_released by done.
    rewrite list_lookup_middle by done. simpl.
    unfold held, live. rewrite Hw, andb_true_r. simpl.
    split; [done|]. split; [done|].
    destruct (opened w); simpl; (split; [done|]); split; lia.
  - intros (-> & Hrel).
    rewrite held_from_released, open_from_released by done.
    split; [done|]. split; [done|]. split; [done|]. simpl. split; lia.
Qed.

(** The full-session writer gets each frame of a run, in order. *)
Lemma core_run_big thr nthr cs : forall k,
  released (k_big k) = false ->
  k_big (core_run thr nthr k cs)
  = mkWriter (path (k_big k)) (opened (k_big k)) false
      (written (k_big k) ++ (cap_frame <$> cs)).
Proof.
  induction cs as [|c cs IH]; intros k Hrel; simpl.
  - rewrite app_nil_r. destruct (k_big k); simpl in *. by subst.
  - assert (k_big (core_step thr nthr k c).1 = write (cap_frame c) (k_big k))
      as Hbig.
    { unfold core_step, core_detect, core_record. by split_ifs. }
    rewrite IH; rewrite Hbig; unfold write; rewrite Hrel; simpl; [|done].
    by rewrite <- app_assoc.
Qed.

(** ** The region of interest of main_2.py *)

Lemma validate_roi_valid r W H :
  1 <= W -> 1 <= H -> roi_valid (Main2.validate_roi r W H) W H = true.
Proof.
  destruct r as [[[x y] w] h]. unfold roi_valid, Main2.validate_roi.
  intros HW HH. rewrite !andb_true_iff, !Z.leb_le. lia.
Qed.

Lemma validate_roi_fixed r W H :
  1 <= W -> 1 <= H ->
  roi_valid r W H = true <-> Main2.validate_roi r W H = r.
Proof.
  destruct r as [[[x y] w] h]. unfold roi_valid, Main2.validate_roi.
  intros HW HH. rewrite !andb_true_iff, !Z.leb_le. split.
  - intros. repeat f_equal; lia.
  - intros [= Hx Hy Hw Hh]. rewrite Hx, Hy in *. lia.
Qed.

(** ** The reference image of main.py *)

Section Refresh.

Variable gray_blur : frame -> image.
Variable cv2_rectangle : frame -> Z * Z -> Z * Z -> frame.

Lemma main_detect_record cfg c s :
  let s1 := Main.record (cap_frame c) (Main.detect cfg c s).1 in
  Main.frame_count s1 = Main.frame_count s
  /\ Main.first_gray_roi s1 = Main.first_gray_roi s.
Proof.
  destruct s as [cn md mc nmc o fc ref big ws].
  unfold Main.detect, Main.record. simpl.
  destruct (motion c); simpl; split_ifs; done.
Qed.

Lemma main_step_refresh cfg s c :
  let s' := (Main.iteration gray_blur cv2_rectangle cfg s c).1 in
  let r := (Main.frame_count s + 1) `mod` refresh_interval cfg =? 0 in
  Main.frame_count s' = Main.frame_count s + 1
  /\ refreshed (Main.iteration gray_blur cv2_rectangle cfg s c).2 = r
  /\ Main.first_gray_roi s'
     = if r
       then crop 250 150 200 200
              (gray_blur (cv2_rectangle (cap_frame c) (250, 150) (450, 350)))
       else Main.first_gray_roi s.
Proof.
  intros s' r. subst s' r. unfold Main.iteration, Main.on_frame.
  pose proof (main_detect_record cfg c
                (Main.set_frame_count (Main.frame_count s + 1) s))
    as [Hfc Href].
  destruct (Main.detect cfg c _) as [s1 d]. simpl in Hfc, Href.
  unfold Main.refresh. rewrite Hfc.
  destruct (_ =? 0); simpl; rewrite ?Hfc, ?Href; done.
Qed.

Lemma main_refreshed_run cfg cs : forall s,
  refreshed <$> Main.outcomes gray_blur cv2_rectangle cfg s cs
  = imap (fun i _ =>
            (Main.frame_count s + 1 + Z.of_nat i) `mod` refresh_interval cfg
            =? 0) cs.
Proof.
  induction cs as [|c cs IH]; intros s; simpl; [done|].
  destruct (main_step_refresh cfg s c) as (Hfc & Hr & _).
  rewrite Hr, IH, Hfc, Z.add_0_r. f_equal.
  apply imap_ext. intros i x _. simpl. do 2 f_equal. lia.
Qed.

End Refresh.

(** ** Clip numbers and file names *)

Lemma read_decimal_zeros k s : read_decimal (zeros k +:+ s) = read_decimal s.
Proof.
  induction k as [|k IH]; [done|].
  unfold read_decimal in *. simpl.
  destruct (NilEmpty.uint_of_string (zeros k +:+ s)) as [d|] eqn:E;
    destruct (NilEmpty.uint_of_string s) as [d'|]; simpl in *; congruence.
Qed.

Lemma read_decimal_digits n : read_decimal (digits n) = Some (Z.to_N n).
Proof.
  unfold read_decimal, digits, NilZero.string_of_uint.
  destruct (N.to_uint (Z.to_N n)) eqn:E;
    try (rewrite <- E, NilEmpty.usu; simpl;
         by rewrite DecimalN.Unsigned.of_to).
  pose proof (DecimalN.Unsigned.of_to (Z.to_N n)) as H.
  rewrite E in H. simpl in *. by rewrite <- H.
Qed.

(** The number can be read back from what [:03d] prints. *)
Lemma fmt_03d_read n : 0 <= n -> read_decimal (fmt_03d n) = Some (Z.to_N n).
Proof.
  intros Hn. unfold fmt_03d. destruct (Z.ltb_spec n 0); [lia|].
  by rewrite read_decimal_zeros, read_decimal_digits.
Qed.

Lemma fmt_03d_inj n m : 0 <= n -> 0 <= m -> fmt_03d n = fmt_03d m -> n = m.
Proof.
  intros Hn Hm E. apply (f_equal read_decimal) in E.
  rewrite !fmt_03d_read in E by done. injection E as E. lia.
Qed.


Lemma path_alter (g : VideoWriter -> VideoWriter) h (ws : heap) :
  (forall w, path (g w) = path w) ->
  path <$> alter g h ws = path <$> ws.
Proof.
  intros Hg. rewrite (list_fmap_alter path g id).
  - apply list_alter_id. done.
  - apply Forall_forall. intros w _. apply Hg.
Qed.

Lemma path_write f w : path (write f w) = path w.
Proof. by destruct w as [p o [] fs]. Qed.

Lemma path_release w : path (release w) = path w.
Proof. done. Qed.

Section Names.

Variable gray_blur : frame -> image.
Variable cv2_rectangle : frame -> Z * Z -> Z * Z -> frame.

Lemma main_decisions_cons cfg s c cs :
  Main.decisions gray_blur cv2_rectangle cfg s (c :: cs)
  = decision (Main.iteration gray_blur cv2_rectangle cfg s c).2
      :: Main.decisions gray_blur cv2_rectangle cfg
           (Main.iteration gray_blur cv2_rectangle cfg s c).1 cs.
Proof. done. Qed.

Lemma main_step_names cfg s c :
  let s' := (Main.iteration gray_blur cv2_rectangle cfg s c).1 in
  let d := decision (Main.iteration gray_blur cv2_rectangle cfg s c).2 in
  Main.clip_number s'
  = match d with Start => Main.clip_number s + 1 | _ => Main.clip_number s end
  /\ path <$> Main.writers s'
     = (path <$> Main.writers s)
         ++ match d with
            | Start => [main_clip_name (Main.clip_number s + 1) c]
            | _ => []
            end.
Proof.
  destruct s as [cn md mc nmc o fc ref big ws].
  unfold Main.iteration, Main.on_frame, Main.refresh, Main.detect,
    Main.record, main_clip_name. simpl.
  destruct (motion c); simpl; split_ifs;
    rewrite ?path_alter, ?fmap_app, ?app_nil_r;
    auto using path_write, path_release.
Qed.

Lemma main_run_names cfg cs : forall s,
  let s' := Main.run gray_blur cv2_rectangle cfg s cs in
  let ds := Main.decisions gray_blur cv2_rectangle cfg s cs in
  Main.clip_number s'
  = Main.clip_number s + Z.of_nat (length (started cs ds))
  /\ path <$> Main.writers s'
     = (path <$> Main.writers s)
         ++ imap (fun i c =>
                    main_clip_name (Main.clip_number s + 1 + Z.of_nat i) c)
              (started cs ds).
Proof.
  induction cs as [|c cs IH]; intros s; cbv zeta in *.
  - simpl. split; [lia|by rewrite app_nil_r].
  - rewrite main_decisions_cons. simpl Main.run.
    destruct (main_step_names cfg s c) as [Hn Hp].
    destruct (IH (Main.iteration gray_blur cv2_rectangle cfg s c).1)
      as [IHn IHp].
    rewrite IHn, IHp, Hn, Hp.
    destruct (decision (Main.iteration gray_blur cv2_rectangle cfg s c).2);
      simpl; rewrite ?app_nil_r, <- ?app_assoc; simpl;
      (split; [lia|]); do 2 f_equal; rewrite ?Z.add_0_r; try done;
      apply imap_ext; intros i x _; simpl; f_equal; lia.
Qed.

End Names.

Lemma main2_step_names a s c :
  let s' := (Main2.iteration a s c).1 in
  let d := (Main2.iteration a s c).2 in
  Main2.clip_number s'
  = match d with
    | Start => Main2.clip_number s + 1
    | _ => Main2.clip_number s
    end
  /\ path <$> Main2.writers s'
     = (path <$> Main2.writers s)
         ++ match d with
            | Start => [main2_clip_path (Main2.clip_number s + 1) c]
            | _ => []
            end.
Proof.
  destruct s as [cn o df big md mc nmc fc es ws].
  unfold Main2.iteration, Main2.body, Main2.detect, Main2.record,
    main2_clip_path. simpl. rewrite ?create_video_writer_ok.
  destruct (motion c); simpl; split_ifs;
    rewrite ?path_alter, ?fmap_app, ?app_nil_r;
    auto using path_write, path_release.
Qed.

Lemma main2_run_names a cs : forall s,
  let s' := Main2.run a s cs in
  let ds := Main2.decisions a s cs in
  Main2.clip_number s'
  = Main2.clip_number s + Z.of_nat (length (started cs ds))
  /\ path <$> Main2.writers s'
     = (path <$> Main2.writers s)
         ++ imap (fun i c =>
                    main2_clip_path (Main2.clip_number s + 1 + Z.of_nat i) c)
              (started cs ds).
Proof.
  induction cs as [|c cs IH]; intros s; cbv zeta in *; simpl.
  - split; [lia|by rewrite app_nil_r].
  - destruct (main2_step_names a s c) as [Hn Hp].
    destruct (IH (Main2.iteration a s c).1) as [IHn IHp].
    rewrite IHn, IHp, Hn, Hp.
    destruct (Main2.iteration a s c).2; simpl;
      rewrite ?app_nil_r, <- ?app_assoc; simpl;
      (split; [lia|]); do 2 f_equal; rewrite ?Z.add_0_r; try done;
      apply imap_ext; intros i x _; simpl; f_equal; lia.
Qed.

(** ** A clip writer that does not open *)

Lemma opened_alter (g : VideoWriter -> VideoWriter) h (ws : heap) :
  (forall w, opened (g w) = opened w) ->
  opened <$> alter g h ws = opened <$> ws.
Proof.
  intros Hg. rewrite (list_fmap_alter opened g id).
  - apply list_alter_id. done.
  - apply Forall_forall. intros w _. apply Hg.
Qed.

Lemma opened_write f w : opened (write f w) = opened w.
Proof. by destruct w as [p o [] fs]. Qed.

Lemma core_start_effect thr nthr k c :
  (core_step thr nthr k c).2 = Start ->
  k_motion_detected (core_step thr nthr k c).1 = true
  /\ k_out (core_step thr nthr k c).1 = Some (length (k_writers k))
  /\ k_clip_number (core_step thr nthr k c).1 = k_clip_number k + 1.
Proof.
  unfold core_step, core_detect, core_record. by split_ifs.
Qed.

Lemma core_step_opened thr nthr k c :
  opened <$> k_writers (core_step thr nthr k c).1
  = (opened <$> k_writers k)
      ++ match (core_step thr nthr k c).2 with
         | Start => [open_ok c]
         | _ => []
         end.
Proof.
  unfold core_step, core_detect, core_record.
  split_ifs; rewrite ?opened_alter, ?fmap_app, ?app_nil_r;
    auto using opened_write.
Qed.

(** Whether a writer is opened is settled when it is created. *)
Lemma core_run_opened thr nthr cs : forall k h o,
  (opened <$> k_writers k) !! h = Some o ->
  (opened <$> k_writers (core_run thr nthr k cs)) !! h = Some o.
Proof.
  induction cs as [|c cs IH]; intros k h o Hh; simpl; [done|].
  apply IH. rewrite core_step_opened. by apply lookup_app_l_Some.
Qed.

(** While no clip is stopped, a recording one stays, and none is
    started. *)
Lemma core_recording_stays thr nthr cs : forall k,
  k_motion_detected k = true ->
  (Stop ∉ core_decisions thr nthr k cs) ->
  (Start ∉ core_decisions thr nthr k cs)
  /\ k_clip_number (core_run thr nthr k cs) = k_clip_number k
  /\ k_motion_detected (core_run thr nthr k cs) = true.
Proof.
  induction cs as [|c cs IH]; intros k Hmd Hstop; simpl in *.
  - split; [apply not_elem_of_nil|done].
  - apply not_elem_of_cons in Hstop as [Hc Hstop].
    destruct (core_step_mode thr nthr k c) as [Hm Hn].
    assert ((core_step thr nthr k c).2 = NoChange) as Hd.
    { destruct (core_step thr nthr k c).2 eqn:E; [|done|done].
      apply core_start_iff in E as (? & _). congruence. }
    rewrite Hd in *.
    destruct (IH (core_step thr nthr k c).1) as (H1 & H2 & H3);
      [congruence|done|].
    split; [|split; [congruence|done]].
    apply not_elem_of_cons. done.
Qed.

(** What a start with a writer that does not open leaves behind. *)
Lemma core_failed_open thr nthr k c :
  (core_step thr nthr k c).2 = Start -> open_ok c = false ->
  let k' := (core_step thr nthr k c).1 in
  let h := length (k_writers k) in
  k_motion_detected k' = true /\ k_out k' = Some h
  /\ k_clip_number k' = k_clip_number k + 1
  /\ (forall cs,
        (opened <$> k_writers (core_run thr nthr k' cs)) !! h = Some false)
  /\ (forall cs,
        (Stop ∉ core_decisions thr nthr k' cs) ->
        (Start ∉ core_decisions thr nthr k' cs)
        /\ k_clip_number (core_run thr nthr k' cs) = k_clip_number k'
        /\ k_motion_detected (core_run thr nthr k' cs) = true).
Proof.
  intros Hd Hok k' h.
  destruct (core_start_effect thr nthr k c Hd) as (Hm & Ho & Hn).
  split; [done|]. split; [done|]. split; [done|]. split.
  - intros cs. apply core_run_opened. subst k'.
    rewrite core_step_opened, Hd, Hok.
    subst h. rewrite <- (length_fmap opened).
    by rewrite lookup_app_r, Nat.sub_diag by lia.
  - intros cs. by apply core_recording_stays.
Qed.

Lemma unopened_lookup (ws : heap) h :
  (opened <$> ws) !! h = Some false ->
  exists w, ws !! h = Some w /\ opened w = false /\ file_of w = [].
Proof.
  rewrite list_lookup_fmap. destruct (ws !! h) as [w|]; [|done].
  simpl. intros [= Hw]. exists w. unfold file_of. by rewrite Hw.
Qed.

Lemma opened_anon (ws : heap) : opened <$> (anon <$> ws) = opened <$> ws.
Proof. rewrite <- list_fmap_compose. done. Qed.

(** ** When a clip stops *)

Lemma quiet_count_snoc ms : forall acc m,
  quiet_count acc (ms ++ [m]) = if m then 0 else quiet_count acc ms + 1.
Proof.
  induction ms as [|m' ms IH]; intros acc m; simpl; [done|apply IH].
Qed.

Lemma quiet_count_nonneg ms : forall acc, 0 <= acc -> 0 <= quiet_count acc ms.
Proof.
  induction ms as [|m ms IH]; intros acc Hacc; simpl; [done|].
  apply IH. destruct m; lia.
Qed.

Lemma ends_in_quiet_0 ms : ends_in_quiet 0 ms = true.
Proof.
  unfold ends_in_quiet. rewrite Nat.sub_0_r, drop_all.
  apply andb_true_intro. split; [|done].
  apply bool_decide_eq_true. lia.
Qed.

Lemma ends_in_quiet_snoc n ms m :
  ends_in_quiet (S n) (ms ++ [m]) = negb m && ends_in_quiet n ms.
Proof.
  unfold ends_in_quiet. rewrite length_app. simpl.
  destruct (decide (n <= length ms)%nat) as [Hle|Hgt].
  - replace (length ms + 1 - S n)%nat with (length ms - n)%nat by lia.
    rewrite drop_app_le by lia. rewrite forallb_app. simpl.
    rewrite !bool_decide_eq_true_2 by lia. simpl.
    rewrite andb_true_r. apply andb_comm.
  - rewrite !bool_decide_eq_false_2 by lia. simpl. by rewrite andb_false_r.
Qed.

(** The trailing run of frames without motion is what [quiet_count]
    counts. *)
Lemma ends_in_quiet_count ms : forall n,
  ends_in_quiet n ms = true <-> Z.of_nat n <= quiet_count 0 ms.
Proof.
  induction ms as [|m ms IH] using rev_ind; intros n.
  - destruct n; simpl; [by rewrite ends_in_quiet_0|].
    unfold ends_in_quiet. simpl. split; [done|lia].
  - rewrite quiet_count_snoc.
    pose proof (quiet_count_nonneg ms 0 ltac:(lia)) as Hq.
    destruct n as [|n]; [rewrite ends_in_quiet_0; destruct m; split; lia || done|].
    rewrite ends_in_quiet_snoc.
    destruct m; simpl; [split; [done|lia]|].
    rewrite IH. lia.
Qed.

Lemma core_quiet_counter thr nthr cs : forall k,
  k_no_motion_counter (core_run thr nthr k cs)
  = quiet_count (k_no_motion_counter k) (motion <$> cs).
Proof.
  induction cs as [|c cs IH]; intros k; simpl; [done|].
  rewrite IH. by destruct (core_step_counters thr nthr k c) as [_ ->].
Qed.

(** The stop rule of the shared logic. *)
Lemma core_stop_rule thr nthr ok cs c :
  let k := core_run thr nthr (core_initial ok) cs in
  (core_step thr nthr k c).2 = Stop
  <-> k_motion_detected k = true /\ motion c = false
      /\ ends_in_quiet (Z.to_nat (nthr + 1)) ((motion <$> cs) ++ [motion c])
         = true.
Proof.
  intros k. rewrite core_stop_iff. subst k. rewrite core_quiet_counter.
  simpl. split; intros (Hm & Hc & H); (split; [done|]); (split; [done|]);
    rewrite Hc in *.
  - apply ends_in_quiet_count. rewrite quiet_count_snoc.
    pose proof (quiet_count_nonneg (motion <$> cs) 0 ltac:(lia)). lia.
  - apply ends_in_quiet_count in H. rewrite quiet_count_snoc in H. lia.
Qed.

(** ** Starts and stops take turns *)

Lemma core_alternates thr nthr cs : forall k,
  alternates (k_motion_detected k) (core_decisions thr nthr k cs) = true.
Proof.
  induction cs as [|c cs IH]; intros k; simpl; [done|].
  specialize (IH (core_step thr nthr k c).1).
  destruct (core_step_mode thr nthr k c) as [Hm _].
  destruct (core_step thr nthr k c).2 eqn:E; rewrite Hm in IH.
  - apply core_start_iff in E as (-> & _). done.
  - apply core_stop_iff in E as (-> & _). done.
  - done.
Qed.

Lemma core_start_stop_count thr nthr cs : forall k,
  (count_of Start (core_decisions thr nthr k cs)
   + (if k_motion_detected k then 1 else 0)
   = count_of Stop (core_decisions thr nthr k cs)
     + (if k_motion_detected (core_run thr nthr k cs) then 1 else 0))%nat.
Proof.
  unfold count_of.
  induction cs as [|c cs IH]; intros k; simpl; [done|].
  specialize (IH (core_step thr nthr k c).1).
  destruct (core_step_mode thr nthr k c) as [Hm _].
  destruct (core_step thr nthr k c).2 eqn:E; rewrite Hm in IH.
  - apply core_start_iff in E as (-> & _).
    rewrite filter_cons_True by done. rewrite filter_cons_False by done.
    simpl in *. lia.
  - apply core_stop_iff in E as (-> & _).
    rewrite filter_cons_False by done. rewrite filter_cons_True by done.
    simpl in *. lia.
  - rewrite !filter_cons_False by done. done.
Qed.

(** ** What the clips hold *)

Lemma written_write f w :
  released w = false -> written (write f w) = written w ++ [f].
Proof. destruct w as [p o r fs]. simpl. by intros ->. Qed.

Lemma core_step_written thr nthr k c :
  clip_inv k ->
  written <$> k_writers (core_step thr nthr k c).1
  = match (core_step thr nthr k c).2 with
    | Start => (written <$> k_writers k) ++ [[cap_frame c]]
    | Stop => written <$> k_writers k
    | NoChange =>
        if k_motion_detected k
        then alter (fun l => l ++ [cap_frame c])
               (length (written <$> k_writers k) - 1)%nat
               (written <$> k_writers k)
        else written <$> k_writers k
    end.
Proof.
  destruct k as [cn md mc nmc o big ws].
  unfold clip_inv, core_step, core_detect, core_record. simpl.
  destruct o as [h|]; simpl.
  - intros (-> & ws0 & w & -> & -> & Hrel & Hw).
    rewrite andb_false_r, andb_true_r.
    assert (alter (fun l => l ++ [cap_frame c])
              (length (written <$> ws0 ++ [w]) - 1)%nat
              (written <$> ws0 ++ [w])
            = (written <$> ws0) ++ [written w ++ [cap_frame c]]) as Halt.
    { rewrite fmap_app, length_app. simpl.
      replace (length (written <$> ws0) + 1 - 1)%nat
        with (length (written <$> ws0)) by lia.
      by rewrite (alter_last (fun l => l ++ [cap_frame c])). }
    destruct (motion c); simpl.
    + rewrite alter_last, fmap_app, Halt. simpl. by rewrite written_write.
    + destruct (nthr <? nmc + 1); simpl.
      * rewrite alter_last, !fmap_app. done.
      * rewrite alter_last, fmap_app, Halt. simpl. by rewrite written_write.
  - intros (-> & Hrel). rewrite andb_true_r, andb_false_r.
    destruct (motion c); simpl; [|done].
    destruct (thr <? mc + 1); simpl; [|done].
    rewrite alter_last, fmap_app. done.
Qed.

Lemma core_run_segments thr nthr cs : forall k,
  clip_inv k ->
  written <$> k_writers (core_run thr nthr k cs)
  = segments (k_motion_detected k) (written <$> k_writers k) cs
      (core_decisions thr nthr k cs).
Proof.
  induction cs as [|c cs IH]; intros k Hk; simpl; [done|].
  rewrite IH by by apply clip_inv_step.
  rewrite core_step_written by done.
  destruct (core_step_mode thr nthr k c) as [-> _].
  by destruct (core_step thr nthr k c).2.
Qed.

Lemma released_vacuous (ws : heap) (P : VideoWriter -> Prop) :
  Forall (fun w => released w = true) ws ->
  Forall (fun w => released w = false -> P w) ws.
Proof.
  intros H. eapply Forall_impl; [exact H|]. simpl. intros w -> [=].
Qed.

Lemma core_len_step thr nthr k c :
  clip_inv k -> clip_len_inv nthr k ->
  clip_len_inv nthr (core_step thr nthr k c).1.
Proof.
  destruct k as [cn md mc nmc o big ws].
  unfold clip_inv, clip_len_inv, long_enough, core_step, core_detect,
    core_record. simpl.
  destruct o as [h|]; simpl.
  - intros (-> & ws0 & w & -> & -> & Hrel & Hw).
    rewrite andb_false_r, andb_true_r.
    rewrite !Forall_app, !Forall_singleton.
    intros [[Hl0 _] [_ Hcur]]. specialize (Hcur Hw).
    destruct (motion c); simpl.
    + rewrite alter_last, !Forall_app, !Forall_singleton.
      rewrite released_write, written_write, length_app by done. simpl.
      split; (split; [|intros; try congruence; lia]); [done|].
      by apply released_vacuous.
    + destruct (Z.ltb_spec nthr (nmc + 1)); simpl.
      * rewrite alter_last, !Forall_app, !Forall_singleton. simpl.
        split; (split; [|intros; try congruence; lia]); [done|].
        by apply released_vacuous.
      * rewrite alter_last, !Forall_app, !Forall_singleton.
        rewrite released_write, written_write, length_app by done. simpl.
        split; (split; [|intros; try congruence; lia]); [done|].
        by apply released_vacuous.
  - intros (-> & Hrel). rewrite andb_true_r, andb_false_r.
    intros [Hl _].
    destruct (motion c); simpl.
    + destruct (thr <? mc + 1); simpl.
      * rewrite alter_last, !Forall_app, !Forall_singleton. simpl.
        split; (split; [|intros; try congruence; lia]); [done|].
        by apply released_vacuous.
      * split; [done|]. by apply released_vacuous.
    + split; [done|]. by apply released_vacuous.
Qed.

Lemma core_len_run thr nthr cs : forall k,
  clip_inv k -> clip_len_inv nthr k ->
  clip_len_inv nthr (core_run thr nthr k cs).
Proof.
  induction cs as [|c cs IH]; intros k Hk Hl; simpl; [done|].
  apply IH; [by apply clip_inv_step|by apply core_len_step].
Qed.

Lemma long_enough_anon nthr (ws : heap) :
  Forall (long_enough nthr) (anon <$> ws) -> Forall (long_enough nthr) ws.
Proof. rewrite Forall_fmap. done. Qed.

Lemma written_anon (ws : heap) : written <$> (anon <$> ws) = written <$> ws.
Proof. rewrite <- list_fmap_compose. done. Qed.

(** ** Leaving the loop *)

Lemma written_alter_release h (ws : heap) :
  written <$> alter release h ws = written <$> ws.
Proof.
  rewrite (list_fmap_alter written release id).
  - apply list_alter_id. done.
  - apply Forall_forall. done.
Qed.

Lemma released_anon (ws : heap) (P : bool -> Prop) :
  Forall (fun w => P (released w)) (anon <$> ws)
  <-> Forall (fun w => P (released w)) ws.
Proof. rewrite Forall_fmap. done. Qed.

(** Releasing the writer [out] refers to leaves none unreleased. *)
Lemma clip_inv_release_all k :
  clip_inv k ->
  Forall (fun w => released w = true)
    (match k_out k with
     | Some h => alter release h (k_writers k)
     | None => k_writers k
     end).
Proof.
  unfold clip_inv. destruct (k_out k) as [h|].
  - intros (_ & ws & w & -> & -> & Hrel & _). rewrite alter_last.
    apply Forall_app. split; [done|]. by repeat constructor.
  - by intros [_ Hrel].
Qed.

Lemma handles_released (ws : heap) :
  Forall (fun w => released w = true) ws ->
  held_handles ws = [] /\ open_handles ws = [].
Proof.
  intros H. split; [by apply held_from_released|by apply open_from_released].
Qed.

Lemma attempts_handled evs :
  main_exit evs <> Finished -> attempts evs = length (handled evs).
Proof.
  induction evs as [|[c fok| |] rest IH]; simpl; try done.
  destruct (key_q c); [done|]. simpl. intros E. by rewrite IH.
Qed.

Section Leaving.

Variable gray_blur : frame -> image.
Variable cv2_rectangle : frame -> Z * Z -> Z * Z -> frame.

#[local] Abbreviation loop := (Main.loop gray_blur cv2_rectangle).
#[local] Abbreviation run := (Main.run gray_blur cv2_rectangle).

Lemma main_run_frame_count cfg cs : forall s,
  Main.frame_count (run cfg s cs)
  = Main.frame_count s + Z.of_nat (length cs).
Proof.
  induction cs as [|c cs IH]; intros s; simpl; [lia|].
  rewrite IH.
  destruct (main_step_refresh gray_blur cv2_rectangle cfg s c) as [-> _].
  lia.
Qed.

Lemma main_loop_status cfg evs : forall s, (loop cfg s evs).2 = main_exit evs.
Proof.
  induction evs as [|[c fok| |] rest IH]; intros s; simpl; try done.
  destruct (key_q c); simpl; [done|apply IH].
Qed.

(** The state the loop of [main.py] ends in: that of the captures
    handled, torn down when the loop was left by [break]. *)
Lemma main_loop_state cfg evs : forall s,
  (loop cfg s evs).1
  = match main_exit evs with
    | Finished =>
        Main.teardown
          (Main.set_frame_count
             (Main.frame_count s + Z.of_nat (attempts evs))
             (run cfg s (handled evs)))
    | _ => run cfg s (handled evs)
    end.
Proof.
  induction evs as [|[c fok| |] rest IH]; intros s; simpl; try done.
  destruct (key_q c); simpl.
  - f_equal.
    set (s1 := (Main.iteration gray_blur cv2_rectangle cfg s c).1).
    assert (Main.frame_count s + 1 = Main.frame_count s1) as Hfc.
    { subst s1.
      by destruct (main_step_refresh gray_blur cv2_rectangle cfg s c)
        as [-> _]. }
    replace (Main.frame_count s + Z.of_nat 1) with (Main.frame_count s1)
      by lia.
    by destruct s1.
  - rewrite IH.
    destruct (main_step_refresh gray_blur cv2_rectangle cfg s c) as [-> _].
    destruct (main_exit rest); [done| |done].
    do 2 f_equal. lia.
Qed.

Lemma main_loop_app cfg evs more : forall s,
  ended evs = true -> loop cfg s (evs ++ more) = loop cfg s evs.
Proof.
  induction evs as [|[c fok| |] rest IH]; intros s; simpl; try done.
  destruct (key_q c); simpl; [done|apply IH].
Qed.

Lemma main_teardown_released s :
  clip_inv (main_view s) ->
  held_handles (Main.writers (Main.teardown s)) = []
  /\ open_handles (Main.writers (Main.teardown s)) = []
  /\ released (Main.big_clip_out (Main.teardown s)) = true
  /\ written <$> Main.writers (Main.teardown s) = written <$> Main.writers s
  /\ written (Main.big_clip_out (Main.teardown s))
     = written (Main.big_clip_out s).
Proof.
  intros Hinv. apply clip_inv_release_all in Hinv. simpl in Hinv.
  assert (Forall (fun w => released w = true)
            (Main.writers (Main.teardown s))) as Hrel.
  { apply (released_anon _ (fun b => b = true)).
    unfold Main.teardown. destruct (Main.out s) as [h|]; simpl in *; [|done].
    by rewrite anon_alter_release. }
  destruct (handles_released _ Hrel) as [-> ->].
  unfold Main.teardown. destruct (Main.out s) as [h|]; simpl; [|done].
  by rewrite written_alter_release.
Qed.

End Leaving.

Lemma main2_run_frame_count a cs : forall s,
  Main2.frame_count (Main2.run a s cs)
  = Main2.frame_count s + Z.of_nat (length cs).
Proof.
  induction cs as [|c cs IH]; intros s; simpl; [lia|].
  rewrite IH.
  assert (Main2.frame_count (Main2.iteration a s c).1
          = Main2.frame_count s + 1) as ->; [|lia].
  destruct s as [cn o df big md mc nmc fc es ws].
  unfold Main2.iteration, Main2.body, Main2.detect, Main2.record. simpl.
  rewrite ?create_video_writer_ok.
  destruct (motion c); simpl; split_ifs; done.
Qed.

(** One pass of [main_2.py] raises exactly when it would start a clip
    and the folder is missing; the clip number and the folder name are
    set by then. Otherwise it is the pass with the folder in place. *)
Lemma main2_body_spec a fok s c :
  Main2.body a fok s c
  = if bool_decide ((Main2.iteration a s c).2 = Start)
       && no_folder (ymd c) fok
    then (Main2.set_date_folder (ymd c)
            (Main2.set_clip_number (Main2.clip_number s + 1)
               (Main2.set_no_motion_counter 0
                  (Main2.set_motion_counter (Main2.motion_counter s + 1)
                     (Main2.set_frame_count (Main2.frame_count s + 1) s)))),
          None)
    else ((Main2.iteration a s c).1, Some (Main2.iteration a s c).2).
Proof.
  destruct s as [cn o df big md mc nmc fc es ws].
  unfold Main2.iteration, Main2.body, Main2.detect,
    Main2.create_video_writer, no_folder.
  simpl.
  destruct (motion c); simpl.
  - destruct ((Main2.a_motion_threshold a <? mc + 1) && negb md); simpl;
      [|done].
    rewrite andb_false_r. simpl.
    destruct (bool_decide (ymd c = EmptyString)), fok; done.
  - destruct ((Main2.a_no_motion_threshold a <? nmc + 1) && md); done.
Qed.

(** With the folder in place, or none named, the pass raises nothing
    and is [Main2.iteration]. *)
Lemma main2_body_completes a fok s c :
  no_folder (ymd c) fok = false ->
  Main2.body a fok s c
  = ((Main2.iteration a s c).1, Some (Main2.iteration a s c).2).
Proof. intros Hf. by rewrite main2_body_spec, Hf, andb_false_r. Qed.

(** How the loop of [main_2.py] ends: still running in the state of the
    captures completed, or left with that state torn down, or left by
    the [OSError] with a state that holds the same writers. *)
Lemma main2_loop_cases a evs : forall s,
  let r := Main2.run a s (completed a s evs) in
  let l := Main2.loop a s evs in
  (l = (r, Running) /\ ended evs = false /\ completed a s evs = handled evs)
  \/ l = (Main2.teardown r, Finished)
  \/ (exists s',
        l = (Main2.teardown s', Raised OSError)
        /\ Main2.out s' = Main2.out r
        /\ Main2.writers s' = Main2.writers r
        /\ Main2.big_clip_out s' = Main2.big_clip_out r
        /\ Main2.frame_count s' = Main2.frame_count r + 1
        /\ Main2.clip_number s' = Main2.clip_number r + 1
        /\ Main2.motion_detected s' = false
        /\ Main2.motion_detected r = false).
Proof.
  induction evs as [|[c fok| |] rest IH]; intros s; simpl.
  - by left.
  - rewrite main2_body_spec.
    destruct (bool_decide ((Main2.iteration a s c).2 = Start)
              && no_folder (ymd c) fok) eqn:E; simpl.
    + right. right. eexists. split; [done|].
      apply andb_true_iff in E as [E _]. apply bool_decide_eq_true in E.
      destruct (main2_step_view a s c) as [_ Hv]. rewrite Hv in E.
      apply core_start_iff in E as (E & _). simpl in E.
      by destruct s.
    + destruct (key_q c); simpl; [by right; left|].
      destruct (IH (Main2.iteration a s c).1) as [(H1 & H2 & H3)|[?|?]];
        [left|by right; left|by right; right].
      split; [done|]. split; [done|]. by f_equal.
  - by right; left.
  - by right; left.
Qed.

Lemma main2_loop_app a evs more : forall s,
  ended evs = true -> Main2.loop a s (evs ++ more) = Main2.loop a s evs.
Proof.
  induction evs as [|[c fok| |] rest IH]; intros s; simpl; try done.
  destruct (Main2.body a fok s c) as [s' [d|]]; [|done].
  destruct (key_q c); simpl; [done|apply IH].
Qed.

Lemma main2_teardown_released s :
  Forall (fun w => released w = true)
    (match Main2.out s with
     | Some h => alter release h (Main2.writers s)
     | None => Main2.writers s
     end) ->
  held_handles (Main2.writers (Main2.teardown s)) = []
  /\ open_handles (Main2.writers (Main2.teardown s)) = []
  /\ released (Main2.big_clip_out (Main2.teardown s)) = true
  /\ written <$> Main2.writers (Main2.teardown s)
     = written <$> Main2.writers s
  /\ written (Main2.big_clip_out (Main2.teardown s))
     = written (Main2.big_clip_out s).
Proof.
  intros Hrel.
  assert (Forall (fun w => released w = true)
            (Main2.writers (Main2.teardown s))) as Hrel'.
  { unfold Main2.teardown. by destruct (Main2.out s). }
  destruct (handles_released _ Hrel') as [-> ->].
  unfold Main2.teardown. destruct (Main2.out s) as [h|]; simpl; [|done].
  by rewrite written_alter_release.
Qed.

Lemma main2_release_all s :
  clip_inv (main2_view s) ->
  Forall (fun w => released w = true)
    (match Main2.out s with
     | Some h => alter release h (Main2.writers s)
     | None => Main2.writers s
     end).
Proof.
  intros Hinv. apply clip_inv_release_all in Hinv. simpl in Hinv.
  apply (released_anon _ (fun b => b = true)).
  destruct (Main2.out s) as [h|]; simpl in *; [|done].
  by rewrite anon_alter_release.
Qed.

(** The captures [main_2.py] completes are the first of those the
    camera gave, and all of them when no folder is missing. *)
Lemma completed_prefix a evs : forall s,
  exists more, handled evs = completed a s evs ++ more.
Proof.
  induction evs as [|[c fok| |] rest IH]; intros s; simpl;
    try by exists [].
  destruct (bool_decide ((Main2.iteration a s c).2 = Start)
            && no_folder (ymd c) fok).
  - by eexists.
  - destruct (key_q c); [by exists []|].
    destruct (IH (Main2.iteration a s c).1) as [more ->]. by exists more.
Qed.

Lemma completed_all a evs : forall s,
  (forall c fok, Frame c fok ∈ evs -> no_folder (ymd c) fok = false) ->
  completed a s evs = handled evs.
Proof.
  induction evs as [|[c fok| |] rest IH]; intros s Hok; simpl; try done.
  rewrite (Hok c fok), andb_false_r by apply list_elem_of_here.
  f_equal. destruct (key_q c); [done|].
  apply IH. intros c' fok' Hin. apply Hok. by apply list_elem_of_further.
Qed.

(** ** The notification flag of main_2.py *)

Lemma main2_email_step a s c :
  Main2.email_sent s = Main2.motion_detected s ->
  Main2.email_sent (Main2.iteration a s c).1
  = Main2.motion_detected (Main2.iteration a s c).1.
Proof.
  destruct s as [cn o df big md mc nmc fc es ws]. simpl. intros ->.
  unfold Main2.iteration, Main2.body, Main2.detect, Main2.record. simpl.
  rewrite ?create_video_writer_ok.
  destruct (motion c), md; simpl; split_ifs; done.
Qed.

Lemma main2_email_run a cs : forall s,
  Main2.email_sent s = Main2.motion_detected s ->
  Main2.email_sent (Main2.run a s cs)
  = Main2.motion_detected (Main2.run a s cs).
Proof.
  induction cs as [|c cs IH]; intros s Hs; simpl; [done|].
  by apply IH, main2_email_step.
Qed.

(** ** Cropping to the region *)

Lemma validate_roi_idempotent r W H :
  Main2.validate_roi (Main2.validate_roi r W H) W H
  = Main2.validate_roi r W H.
Proof.
  destruct r as [[[x y] w] h]. unfold Main2.validate_roi.
  apply pair_equal_spec. split; [|lia].
  apply pair_equal_spec. split; [|lia].
  apply pair_equal_spec. split; lia.
Qed.

Lemma py_slice_length {A} (lo hi : Z) (l : list A) :
  0 <= lo -> lo <= hi -> hi <= Z.of_nat (length l) ->
  Z.of_nat (length (py_slice lo hi l)) = hi - lo.
Proof.
  intros H0 H1 H2. unfold py_slice, slice_bound.
  destruct (Z.ltb_spec lo 0), (Z.ltb_spec hi 0); try lia.
  rewrite length_take, length_drop. lia.
Qed.

Lemma py_slice_Forall {A} (P : A -> Prop) (lo hi : Z) (l : list A) :
  Forall P l -> Forall P (py_slice lo hi l).
Proof. intros H. unfold py_slice. by apply Forall_take, Forall_drop. Qed.

Lemma crop_size {A} (x y w h W H : Z) (img : list (list A)) :
  has_size W H img -> roi_valid (x, y, w, h) W H = true ->
  has_size w h (crop x y w h img).
Proof.
  intros [Hrows Hcols]. unfold roi_valid.
  rewrite !andb_true_iff, !Z.leb_le. intros.
  unfold crop, has_size. rewrite length_fmap. split.
  - rewrite py_slice_length by lia. lia.
  - rewrite Forall_fmap. apply py_slice_Forall.
    eapply Forall_impl; [exact Hcols|]. intros row Hrow. simpl in *.
    rewrite py_slice_length by lia. lia.
Qed.

Lemma py_slice_lookup {A} (lo hi : Z) (l : list A) (i : nat) :
  0 <= lo -> 0 <= hi ->
  py_slice lo hi l !! i
  = if Z.of_nat i <? hi - lo then l !! (Z.to_nat lo + i)%nat else None.
Proof.
  intros Hlo Hhi. unfold py_slice, slice_bound.
  destruct (lo <? 0) eqn:E1; [lia|]. destruct (hi <? 0) eqn:E2; [lia|].
  clear E1 E2.
  destruct (Z.of_nat i <? hi - lo) eqn:E.
  - apply Z.ltb_lt in E.
    destruct (decide (Z.of_nat i
                      < Z.min hi (Z.of_nat (length l))
                        - Z.min lo (Z.of_nat (length l)))) as [Hi|Hi].
    + rewrite lookup_take_lt, lookup_drop by lia. f_equal. lia.
    + rewrite lookup_take_ge by lia. symmetry. apply lookup_ge_None. lia.
  - apply Z.ltb_ge in E. apply lookup_take_ge. lia.
Qed.

(** The pixel in row [i] and column [j] of a crop is the pixel of the
    image [y] rows further down and [x] columns further right. *)
Lemma pixel_at_crop {A} (x y w h : Z) (img : list (list A)) (i j : nat) :
  0 <= x -> 0 <= y -> 0 <= w -> 0 <= h ->
  pixel_at (crop x y w h img) i j
  = if (Z.of_nat i <? h) && (Z.of_nat j <? w)
    then pixel_at img (Z.to_nat y + i) (Z.to_nat x + j)
    else None.
Proof.
  intros Hx Hy Hw Hh. unfold pixel_at, crop.
  rewrite list_lookup_fmap, py_slice_lookup by lia.
  replace (y + h - y) with h by lia.
  destruct (Z.of_nat i <? h); simpl; [|done].
  destruct (img !! (Z.to_nat y + i)%nat) as [row|]; simpl.
  - rewrite py_slice_lookup by lia. by replace (x + w - x) with w by lia.
  - by destruct (Z.of_nat j <? w).
Qed.

Lemma crop_roi_baseline (gray : frame -> image) (f : frame) :
  baseline_from gray f (Main.crop_roi (gray f)).
Proof.
  intros i j. unfold Main.crop_roi. simpl.
  rewrite pixel_at_crop by lia.
  replace (Z.of_nat i <? 200) with (i <? 200)%nat
    by (destruct (Nat.ltb_spec i 200), (Z.ltb_spec (Z.of_nat i) 200); lia).
  replace (Z.of_nat j <? 200) with (j <? 200)%nat
    by (destruct (Nat.ltb_spec j 200), (Z.ltb_spec (Z.of_nat j) 200); lia).
  done.
Qed.

(** ** Where the reference image comes from *)

Lemma div_succ_same (i n : Z) :
  0 < i -> 0 <= n -> (n + 1) `mod` i <> 0 -> (n + 1) `div` i = n `div` i.
Proof. intros Hi Hn Hm. Z.div_mod_to_equations. nia. Qed.

Lemma div_succ_exact (i n : Z) :
  0 < i -> 0 <= n -> (n + 1) `mod` i = 0 ->
  0 < (n + 1) `div` i /\ (n + 1) `div` i * i - 1 = n.
Proof. intros Hi Hn Hm. Z.div_mod_to_equations. nia. Qed.

Lemma reference_source_snoc interval cs c :
  0 < interval ->
  reference_source interval (cs ++ [c])
  = if (Z.of_nat (length cs) + 1) `mod` interval =? 0
    then Some c
    else reference_source interval cs.
Proof.
  intros Hi. unfold reference_source. rewrite length_app. simpl.
  replace (Z.of_nat (length cs + 1)) with (Z.of_nat (length cs) + 1) by lia.
  set (n := Z.of_nat (length cs)).
  assert (0 <= n) as Hn by lia.
  destruct (Z.eqb_spec ((n + 1) `mod` interval) 0) as [Hm|Hm].
  - destruct (div_succ_exact interval n Hi Hn Hm) as [Hq Hidx].
    rewrite Hidx. destruct (Z.eqb_spec ((n + 1) `div` interval) 0); [lia|].
    subst n. rewrite Nat2Z.id. by rewrite list_lookup_middle.
  - rewrite (div_succ_same interval n Hi Hn Hm).
    destruct (Z.eqb_spec (n `div` interval) 0); [done|].
    apply lookup_app_l.
    assert (n `div` interval * interval <= n)
      by (Z.div_mod_to_equations; nia).
    assert (0 < n `div` interval) by (Z.div_mod_to_equations; nia).
    subst n. nia.
Qed.

Section Reference.

Variable gray_blur : frame -> image.
Variable cv2_rectangle : frame -> Z * Z -> Z * Z -> frame.

Lemma main_run_snoc cfg cs c : forall s,
  Main.run gray_blur cv2_rectangle cfg s (cs ++ [c])
  = (Main.iteration gray_blur cv2_rectangle cfg
       (Main.run gray_blur cv2_rectangle cfg s cs) c).1.
Proof. induction cs as [|c' cs IH]; intros s; simpl; [done|apply IH]. Qed.

Lemma main_run_reference cfg cs s :
  0 < refresh_interval cfg -> Main.frame_count s = 0 ->
  Main.first_gray_roi (Main.run gray_blur cv2_rectangle cfg s cs)
  = match reference_source (refresh_interval cfg) cs with
    | Some c =>
        crop 250 150 200 200
          (gray_blur (cv2_rectangle (cap_frame c) (250, 150) (450, 350)))
    | None => Main.first_gray_roi s
    end.
Proof.
  intros Hi Hfc. induction cs as [|c cs IH] using rev_ind.
  - done.
  - rewrite main_run_snoc, reference_source_snoc by done.
    destruct (main_step_refresh gray_blur cv2_rectangle cfg
                (Main.run gray_blur cv2_rectangle cfg s cs) c)
      as (_ & _ & ->).
    rewrite main_run_frame_count, Hfc, Z.add_0_l.
    destruct (_ =? 0); [done|apply IH].
Qed.

End Reference.

(** ** Clip names do not repeat *)

Lemma all_digits_app a b :
  all_digits (a +:+ b) = all_digits a && all_digits b.
Proof.
  induction a as [|c a IH]; simpl; [done|]. by rewrite IH, andb_assoc.
Qed.

Lemma all_digits_zeros k : all_digits (zeros k) = true.
Proof. induction k as [|k IH]; simpl; done. Qed.

Lemma all_digits_uint d : all_digits (NilEmpty.string_of_uint d) = true.
Proof. induction d; simpl; done. Qed.

Lemma all_digits_digits n : all_digits (digits n) = true.
Proof.
  unfold digits, NilZero.string_of_uint.
  destruct (N.to_uint (Z.to_N n)) eqn:E; [done|..];
    rewrite <- E; apply all_digits_uint.
Qed.

Lemma all_digits_fmt n : 0 <= n -> all_digits (fmt_03d n) = true.
Proof.
  intros Hn. unfold fmt_03d. destruct (Z.ltb_spec n 0); [lia|].
  by rewrite all_digits_app, all_digits_zeros, all_digits_digits.
Qed.

(** A string of digits ends where the first other character stands. *)
Lemma digits_sep_inj d1 : forall d2 c1 c2 r1 r2,
  all_digits d1 = true -> all_digits d2 = true ->
  is_digit c1 = false -> is_digit c2 = false ->
  d1 +:+ String c1 r1 = d2 +:+ String c2 r2 ->
  d1 = d2 /\ r1 = r2.
Proof.
  induction d1 as [|a d1 IH]; intros [|b d2] c1 c2 r1 r2 H1 H2 Hc1 Hc2; simpl.
  - by intros [= _ ->].
  - intros [= -> _]. simpl in H2. by rewrite Hc1 in H2.
  - intros [= -> _]. simpl in H1. by rewrite Hc2 in H1.
  - intros [= -> E]. simpl in H1, H2.
    apply andb_prop in H1 as [_ H1]. apply andb_prop in H2 as [_ H2].
    destruct (IH _ _ _ _ _ H1 H2 Hc1 Hc2 E) as [-> ->]. done.
Qed.

Lemma main_clip_name_inj n m c c' :
  0 <= n -> 0 <= m -> main_clip_name n c = main_clip_name m c' -> n = m.
Proof.
  intros Hn Hm. unfold main_clip_name. simpl. intros [= E].
  apply digits_sep_inj in E as [E _]; try done; try by apply all_digits_fmt.
  by apply fmt_03d_inj.
Qed.

Lemma ends_with_sep_digits d : all_digits d = true -> Main2.ends_with_sep d = false.
Proof.
  induction d as [|c d IH]; simpl; [done|].
  intros [Hc Hd]%andb_prop. destruct d as [|c' d'].
  - destruct (Ascii.eqb_spec c "/"); [subst; done|done].
  - by apply IH.
Qed.

Lemma main2_clip_path_inj n m c c' :
  0 <= n -> 0 <= m ->
  all_digits (ymd c) = true -> all_digits (ymd c') = true ->
  main2_clip_path n c = main2_clip_path m c' -> n = m.
Proof.
  intros Hn Hm Hc Hc'. unfold main2_clip_path, Main2.os_path_join.
  rewrite !ends_with_sep_digits by done.
  assert (forall k h k' h',
            0 <= k -> 0 <= k' ->
            "clip_" +:+ fmt_03d k +:+ "_" +:+ h +:+ ".mp4"
            = "clip_" +:+ fmt_03d k' +:+ "_" +:+ h' +:+ ".mp4" -> k = k')
    as Hname.
  { intros k h k' h' Hk Hk'. simpl. intros [= E].
    apply digits_sep_inj in E as [E _]; try done;
      try by apply all_digits_fmt.
    by apply fmt_03d_inj. }
  destruct (ymd c) as [|a d] eqn:E1, (ymd c') as [|b d'] eqn:E2;
    repeat case_bool_decide; try done.
  - eauto.
  - simpl in *. intros [= <- _]. done.
  - simpl in *. intros [= -> _]. done.
  - intros E.
    apply (digits_sep_inj (String a d) (String b d')) in E as [_ E];
      try done.
    eauto.
Qed.

Lemma NoDup_imap_index {A B} (f : nat -> A -> B) (l : list A) :
  (forall i j x y,
     l !! i = Some x -> l !! j = Some y -> f i x = f j y -> i = j) ->
  NoDup (imap f l).
Proof.
  intros Hinj. apply NoDup_alt. intros i j b.
  rewrite !list_lookup_imap.
  destruct (l !! i) as [x|] eqn:Ei; [|done].
  destruct (l !! j) as [y|] eqn:Ej; [|done].
  simpl. intros [= <-] [= E]. by eapply Hinj.
Qed.

Lemma started_sublist cs : forall ds, started cs ds ⊆ cs.
Proof.
  induction cs as [|c cs IH]; intros [|d ds]; simpl;
    try apply list_subseteq_nil.
  destruct d; intros x Hx; try (apply elem_of_cons; right; by eapply IH).
  apply elem_of_cons in Hx as [->|Hx]; apply elem_of_cons;
    [by left|right; by eapply IH].
Qed.

(** ** The earliest start *)

Lemma core_no_start_soon thr nthr cs : forall k,
  0 <= k_motion_counter k ->
  k_motion_counter k + Z.of_nat (length cs) <= thr ->
  Start ∉ core_decisions thr nthr k cs.
Proof.
  induction cs as [|c cs IH]; intros k H0 Hle; simpl in *.
  - apply not_elem_of_nil.
  - destruct (core_step_counters thr nthr k c) as [Hc _].
    apply not_elem_of_cons. split.
    + intros E. symmetry in E. apply core_start_iff in E as (_ & _ & ?). lia.
    + apply IH; rewrite Hc; destruct (core_step thr nthr k c).2, (motion c);
        lia.
Qed.

(** ** The full-session writer *)

Lemma main_teardown_big s :
  written (Main.big_clip_out (Main.teardown s))
  = written (Main.big_clip_out s)
  /\ opened (Main.big_clip_out (Main.teardown s))
     = opened (Main.big_clip_out s).
Proof. unfold Main.teardown. by split_ifs. Qed.

Lemma main2_teardown_big s :
  written (Main2.big_clip_out (Main2.teardown s))
  = written (Main2.big_clip_out s)
  /\ opened (Main2.big_clip_out (Main2.teardown s))
     = opened (Main2.big_clip_out s)
  /\ written <$> Main2.writers (Main2.teardown s)
     = written <$> Main2.writers s.
Proof.
  unfold Main2.teardown. split_ifs; rewrite ?written_alter_release; done.
Qed.

(** After the captures [cs] the full-session writer of a session holds
    their frames, and is as open as it was made. *)
Lemma core_initial_big thr nthr ok cs :
  k_big (core_run thr nthr (core_initial ok) cs)
  = mkWriter EmptyString ok false (cap_frame <$> cs).
Proof. by rewrite core_run_big. Qed.

Section Big.

Variable gray_blur : frame -> image.
Variable cv2_rectangle : frame -> Z * Z -> Z * Z -> frame.

Lemma main_run_big cfg f0 stamp ok cs :
  let s := Main.run gray_blur cv2_rectangle cfg
             (Main.initial gray_blur f0 stamp ok) cs in
  written (Main.big_clip_out s) = cap_frame <$> cs
  /\ opened (Main.big_clip_out s) = ok
  /\ released (Main.big_clip_out s) = false.
Proof.
  intros s.
  assert (k_big (main_view s)
          = mkWriter EmptyString ok false (cap_frame <$> cs)) as Hk.
  { subst s. by rewrite main_run_view, main_initial_view, core_initial_big. }
  split; [exact (f_equal written Hk)|].
  split; [exact (f_equal opened Hk)|exact (f_equal released Hk)].
Qed.

Lemma main_loop_big cfg evs s :
  let l := Main.loop gray_blur cv2_rectangle cfg s evs in
  let r := Main.run gray_blur cv2_rectangle cfg s (handled evs) in
  written (Main.big_clip_out l.1) = written (Main.big_clip_out r)
  /\ opened (Main.big_clip_out l.1) = opened (Main.big_clip_out r).
Proof.
  intros l r. subst l. rewrite main_loop_state. fold r.
  destruct (main_exit evs); try done.
  destruct (main_teardown_big
              (Main.set_frame_count
                 (Main.frame_count s + Z.of_nat (attempts evs)) r))
    as [-> ->].
  done.
Qed.

End Big.

Lemma main2_run_big a ymd0 hms0 ok cs :
  let s := Main2.run a (Main2.initial ymd0 hms0 ok) cs in
  written (Main2.big_clip_out s) = cap_frame <$> cs
  /\ opened (Main2.big_clip_out s) = ok
  /\ released (Main2.big_clip_out s) = false.
Proof.
  intros s.
  assert (k_big (main2_view s)
          = mkWriter EmptyString ok false (cap_frame <$> cs)) as Hk.
  { subst s. by rewrite main2_run_view, main2_initial_view, core_initial_big. }
  split; [exact (f_equal written Hk)|].
  split; [exact (f_equal opened Hk)|exact (f_equal released Hk)].
Qed.

Lemma main2_loop_big a evs s :
  let l := Main2.loop a s evs in
  let r := Main2.run a s (completed a s evs) in
  written (Main2.big_clip_out l.1) = written (Main2.big_clip_out r)
  /\ opened (Main2.big_clip_out l.1) = opened (Main2.big_clip_out r)
  /\ written <$> Main2.writers l.1 = written <$> Main2.writers r.
Proof.
  intros l r.
  destruct (main2_loop_cases a evs s)
    as [(E & _)|[E|(s' & E & Ho & Hw & Hb & _)]];
    fold l in E; rewrite E; cbn [fst].
  - done.
  - apply main2_teardown_big.
  - destruct (main2_teardown_big s') as (-> & -> & ->).
    by rewrite Hb, Hw.
Qed.

(** ** The command line of main_2.py *)

Lemma parse_arguments_None cl :
  Main2.parse_arguments cl = None
  <-> Main2.opt_other cl = true
      \/ Main2.opt_motion_threshold cl = Main2.Unusable
      \/ Main2.opt_no_motion_threshold cl = Main2.Unusable
      \/ Main2.opt_sensitivity cl = Main2.Unusable
      \/ Main2.opt_roi cl = Main2.Unusable.
Proof.
  destruct cl as [[|mt|] [|nmt|] [|se|] [|r|] []];
    unfold Main2.parse_arguments; simpl; split; try done;
    try (intros _; by auto 6);
    intros [?|[?|[?|[?|?]]]]; done.
Qed.

Lemma parse_arguments_Some cl a :
  Main2.parse_arguments cl = Some a ->
  Main2.a_motion_threshold a
  = match Main2.opt_motion_threshold cl with
    | Main2.Value v => v
    | _ => 10
    end
  /\ Main2.a_no_motion_threshold a
     = match Main2.opt_no_motion_threshold cl with
       | Main2.Value v => v
       | _ => 20
       end
  /\ Main2.a_sensitivity a
     = match Main2.opt_sensitivity cl with
       | Main2.Value v => v
       | _ => 500
       end
  /\ Main2.a_roi a
     = match Main2.opt_roi cl with
       | Main2.Value v => v
       | _ => (250, 150, 200, 200)
       end.
Proof.
  destruct cl as [[|mt|] [|nmt|] [|se|] [|r|] []];
    unfold Main2.parse_arguments; simpl; try done; by intros [= <-].
Qed.

Lemma startup_parsed cl a camera_opened ymd0 hms0 folder_ok big_ok :
  Main2.parse_arguments cl = Some a ->
  Main2.startup cl camera_opened ymd0 hms0 folder_ok big_ok
  = if camera_opened
    then if no_folder ymd0 folder_ok then Main2.FolderError
         else Main2.Session a (Main2.validate_roi (Main2.a_roi a) 640 480)
                (Main2.initial ymd0 hms0 big_ok)
    else Main2.IOError.
Proof.
  intros E. unfold Main2.startup, Main2.create_video_writer, no_folder.
  rewrite E. simpl. destruct camera_opened; [|done].
  by destruct (negb (bool_decide (ymd0 = EmptyString)) && negb folder_ok).
Qed.

(** ** What the two scripts have in common *)

Lemma released_fmap_anon (ws : heap) :
  released <$> (anon <$> ws) = released <$> ws.
Proof. rewrite <- list_fmap_compose. done. Qed.

Lemma core_step_common thr nthr k k' c :
  common k = common k' ->
  common (core_step thr nthr k c).1 = common (core_step thr nthr k' c).1
  /\ (core_step thr nthr k c).2 = (core_step thr nthr k' c).2.
Proof.
  destruct k as [cn md mc nmc o [p op rl wr] ws].
  destruct k' as [cn' md' mc' nmc' o' [p' op' rl' wr'] ws'].
  unfold common. simpl. intros [= -> -> -> -> -> -> -> ->].
  unfold core_step, core_detect, core_record, write. simpl.
  split_ifs; done.
Qed.

Lemma core_run_common thr nthr cs : forall k k',
  common k = common k' ->
  common (core_run thr nthr k cs) = common (core_run thr nthr k' cs)
  /\ core_decisions thr nthr k cs = core_decisions thr nthr k' cs.
Proof.
  induction cs as [|c cs IH]; intros k k' E; simpl; [done|].
  destruct (core_step_common thr nthr k k' c E) as [Es ->].
  destruct (IH _ _ Es) as [-> ->]. done.
Qed.

Lemma teardown_common s s2 :
  common (main2_view s2) = common (main_view s) ->
  common (main2_view (Main2.teardown s2))
  = common (main_view (Main.teardown s)).
Proof.
  destruct s as [cn md mc nmc o fc ref big ws].
  destruct s2 as [cn2 o2 df2 big2 md2 mc2 nmc2 fc2 es2 ws2].
  unfold common, main_view, main2_view, Main.teardown, Main2.teardown. simpl.
  intros [= -> -> -> -> -> Hr Hw Hws].
  destruct o as [h|]; simpl;
    rewrite ?anon_alter_release, ?Hws, ?Hw; done.
Qed.

Lemma main_view_frame_count n s :
  main_view (Main.set_frame_count n s) = main_view s.
Proof. done. Qed.

Lemma main_exit_undisturbed evs :
  undisturbed evs = true ->
  main_exit evs = if ended evs then Finished else Running.
Proof.
  induction evs as [|[c fok| |] rest IH]; simpl; try done.
  intros [_ H]%andb_true_iff. destruct (key_q c); [done|by apply IH].
Qed.

Lemma main2_loop_undisturbed a evs : forall s,
  undisturbed evs = true ->
  Main2.loop a s evs
  = if ended evs then (Main2.teardown (Main2.run a s (handled evs)), Finished)
    else (Main2.run a s (handled evs), Running).
Proof.
  induction evs as [|[c fok| |] rest IH]; intros s; simpl; try done.
  intros [Hf H]%andb_true_iff. apply negb_true_iff in Hf.
  rewrite main2_body_completes by done.
  destruct (key_q c); simpl; [done|by apply IH].
Qed.

(** * The properties claimed of the scripts *)

Section Claims.

Variable gray_blur : frame -> image.
Variable cv2_rectangle : frame -> Z * Z -> Z * Z -> frame.

#[local] Abbreviation iteration := (Main.iteration gray_blur cv2_rectangle).
#[local] Abbreviation run := (Main.run gray_blur cv2_rectangle).
#[local] Abbreviation decisions := (Main.decisions gray_blur cv2_rectangle).
#[local] Abbreviation initial := (Main.initial gray_blur).

(** C1, as the code has it. In both scripts a frame starts a clip if and
    only if no clip was being recorded, the frame shows motion, and the
    number of motion frames since the last Stop (or since the session
    began), this frame included, exceeds the motion threshold. The
    counted frames need not be consecutive; a run of threshold + 1
    consecutive motion frames ending at this frame is sufficient. *)
Theorem start_decision_rule cfg f0 stamp ok a ymd0 hms0 ok2 cs c :
  let s := run cfg (initial f0 stamp ok) cs in
  let ds := decisions cfg (initial f0 stamp ok) cs in
  let s2 := Main2.run a (Main2.initial ymd0 hms0 ok2) cs in
  let ds2 := Main2.decisions a (Main2.initial ymd0 hms0 ok2) cs in
  (decision (iteration cfg s c).2 = Start
   <-> Main.motion_detected s = false /\ motion c = true
       /\ motion_threshold cfg < tally 0 (motion <$> cs) ds + 1)
  /\ (Main.motion_detected s = false -> motion c = true ->
      ends_in_motion (Z.to_nat (motion_threshold cfg + 1))
        ((motion <$> cs) ++ [motion c]) = true ->
      decision (iteration cfg s c).2 = Start)
  /\ ((Main2.iteration a s2 c).2 = Start
      <-> Main2.motion_detected s2 = false /\ motion c = true
          /\ Main2.a_motion_threshold a < tally 0 (motion <$> cs) ds2 + 1)
  /\ (Main2.motion_detected s2 = false -> motion c = true ->
      ends_in_motion (Z.to_nat (Main2.a_motion_threshold a + 1))
        ((motion <$> cs) ++ [motion c]) = true ->
      (Main2.iteration a s2 c).2 = Start).
Proof.
  intros s ds s2 ds2.
  destruct (main_step_view gray_blur cv2_rectangle cfg s c) as [_ Hd].
  destruct (main2_step_view a s2 c) as [_ Hd2].
  rewrite Hd, Hd2.
  change (Main.motion_detected s) with (k_motion_detected (main_view s)).
  change (Main2.motion_detected s2) with (k_motion_detected (main2_view s2)).
  subst s ds s2 ds2.
  rewrite main_decisions_view, main2_decisions_view.
  rewrite main_run_view, main2_run_view.
  rewrite main_initial_view, main2_initial_view.
  pose proof (core_start_rule (motion_threshold cfg) (no_motion_threshold cfg)
                ok cs c) as [H1 H2].
  pose proof (core_start_rule (Main2.a_motion_threshold a)
                (Main2.a_no_motion_threshold a) ok2 cs c) as [H3 H4].
  done.
Qed.

(** C2, as the code has it. In both scripts a frame with motion adds one
    to the motion counter and sets the no-motion counter to 0; a frame
    without motion adds one to the no-motion counter and leaves the
    motion counter as it is, unless the frame stops a clip, which sets
    it to 0. *)
Theorem counter_updates cfg s c a s2 :
  (Main.no_motion_counter (iteration cfg s c).1
   = if motion c then 0 else Main.no_motion_counter s + 1)
  /\ (Main.motion_counter (iteration cfg s c).1
      = if motion c then Main.motion_counter s + 1
        else match decision (iteration cfg s c).2 with
             | Stop => 0
             | _ => Main.motion_counter s
             end)
  /\ (Main2.no_motion_counter (Main2.iteration a s2 c).1
      = if motion c then 0 else Main2.no_motion_counter s2 + 1)
  /\ (Main2.motion_counter (Main2.iteration a s2 c).1
      = if motion c then Main2.motion_counter s2 + 1
        else match (Main2.iteration a s2 c).2 with
             | Stop => 0
             | _ => Main2.motion_counter s2
             end).
Proof.
  destruct (main_step_view gray_blur cv2_rectangle cfg s c) as [Hs Hd].
  destruct (main2_step_view a s2 c) as [Hs2 Hd2].
  change (Main.no_motion_counter (iteration cfg s c).1)
    with (k_no_motion_counter (main_view (iteration cfg s c).1)).
  change (Main.motion_counter (iteration cfg s c).1)
    with (k_motion_counter (main_view (iteration cfg s c).1)).
  change (Main2.no_motion_counter (Main2.iteration a s2 c).1)
    with (k_no_motion_counter (main2_view (Main2.iteration a s2 c).1)).
  change (Main2.motion_counter (Main2.iteration a s2 c).1)
    with (k_motion_counter (main2_view (Main2.iteration a s2 c).1)).
  rewrite Hs, Hd, Hs2, Hd2.
  destruct (core_step_counters (motion_threshold cfg)
              (no_motion_threshold cfg) (main_view s) c) as [-> ->].
  destruct (core_step_counters (Main2.a_motion_threshold a)
              (Main2.a_no_motion_threshold a) (main2_view s2) c) as [-> ->].
  pose proof (core_stop_iff (motion_threshold cfg)
                (no_motion_threshold cfg) (main_view s) c) as [H1 _].
  pose proof (core_stop_iff (Main2.a_motion_threshold a)
                (Main2.a_no_motion_threshold a) (main2_view s2) c) as [H2 _].
  repeat split; try done.
  - destruct (core_step _ _ (main_view s) c).2; try done.
    destruct (H1 eq_refl) as (_ & -> & _). done.
  - destruct (core_step _ _ (main2_view s2) c).2; try done.
    destruct (H2 eq_refl) as (_ & -> & _). done.
Qed.

(** C3. With both thresholds 2, [main.py] decides nothing at the frames
    without motion and at the first two motion frames of
    F,F,T,T,T,F,F,F, starts a clip at the third motion frame, and stops
    it at the third frame without motion after that. In general the
    comparisons are strict: with thresholds n and m, n motion frames
    start nothing and the next one starts a clip, and then m frames
    without motion stop nothing and the next one stops the clip. *)
Theorem debounce_example f0 stamp ok (n m : nat) r :
  decisions (mkConfig 2 2 r) (initial f0 stamp ok) [F; F; T; T; T; F; F; F]
  = [NoChange; NoChange; NoChange; NoChange; Start; NoChange; NoChange; Stop]
  /\ decisions (mkConfig (Z.of_nat n) (Z.of_nat m) r) (initial f0 stamp ok)
       (replicate n T ++ [T] ++ replicate m F ++ [F])
     = replicate n NoChange ++ [Start] ++ replicate m NoChange ++ [Stop].
Proof.
  rewrite !main_decisions_view, !main_initial_view. split.
  - reflexivity.
  - apply core_thresholds_strict.
Qed.

(** C4, as the code has it. After every frame a session of either script
    has handled, a clip is being recorded ([motion_detected]) exactly
    when [out] refers to a writer; the writers not yet released are
    exactly that one, so none is left over while nothing is recorded;
    and that writer is the only one open, if it was opened: when it was
    not, a clip is being recorded with no writer that takes frames. At
    most one clip writer is unreleased and at most one is open. *)
Theorem one_clip_open cfg f0 stamp ok a ymd0 hms0 ok2 cs :
  let s := run cfg (initial f0 stamp ok) cs in
  let s2 := Main2.run a (Main2.initial ymd0 hms0 ok2) cs in
  (Main.motion_detected s = bool_decide (is_Some (Main.out s))
   /\ held_handles (Main.writers s) = option_list (Main.out s)
   /\ open_handles (Main.writers s)
      = match Main.out s with
        | Some h => if opened_at (Main.writers s) h then [h] else []
        | None => []
        end
   /\ (length (held_handles (Main.writers s)) <= 1)%nat
   /\ (length (open_handles (Main.writers s)) <= 1)%nat)
  /\ (Main2.motion_detected s2 = bool_decide (is_Some (Main2.out s2))
      /\ held_handles (Main2.writers s2) = option_list (Main2.out s2)
      /\ open_handles (Main2.writers s2)
         = match Main2.out s2 with
           | Some h => if opened_at (Main2.writers s2) h then [h] else []
           | None => []
           end
      /\ (length (held_handles (Main2.writers s2)) <= 1)%nat
      /\ (length (open_handles (Main2.writers s2)) <= 1)%nat).
Proof.
  intros s s2. split.
  - assert (clip_inv (main_view s)) as Hinv.
    { subst s. rewrite main_run_view, main_initial_view.
      apply clip_inv_run, clip_inv_initial. }
    apply clip_inv_handles in Hinv. simpl in Hinv.
    rewrite held_handles_anon, open_handles_anon in Hinv.
    destruct (Main.out s) as [h|]; [rewrite opened_at_anon in Hinv|];
      exact Hinv.
  - assert (clip_inv (main2_view s2)) as Hinv.
    { subst s2. rewrite main2_run_view, main2_initial_view.
      apply clip_inv_run, clip_inv_initial. }
    apply clip_inv_handles in Hinv. simpl in Hinv.
    rewrite held_handles_anon, open_handles_anon in Hinv.
    destruct (Main2.out s2) as [h|]; [rewrite opened_at_anon in Hinv|];
      exact Hinv.
Qed.

(** C5, as the code has it. In a session of either script, whatever the
    motion flags, the full-session writer is handed the frames the loop
    handled to the end, each once and in the order read. In [main.py]
    these are all frames read in the loop up to the first failed read,
    interrupt or quit key; in [main_2.py] they stop short of a frame at
    which [os.makedirs] raises, and are all of them when no folder is
    missing. The file holds them when the writer was opened and nothing
    when it was not. The frame [main.py] reads before the loop is not
    among them. *)
Theorem full_session_recording cfg f0 stamp ok a ymd0 hms0 ok2 evs :
  let s := (Main.loop gray_blur cv2_rectangle cfg (initial f0 stamp ok)
              evs).1 in
  let init2 := Main2.initial ymd0 hms0 ok2 in
  let s2 := (Main2.loop a init2 evs).1 in
  written (Main.big_clip_out s) = cap_frame <$> handled evs
  /\ file_of (Main.big_clip_out s)
     = (if ok then cap_frame <$> handled evs else [])
  /\ written (Main2.big_clip_out s2) = cap_frame <$> completed a init2 evs
  /\ file_of (Main2.big_clip_out s2)
     = (if ok2 then cap_frame <$> completed a init2 evs else [])
  /\ (exists more, handled evs = completed a init2 evs ++ more)
  /\ ((forall c folder_ok,
         Frame c folder_ok ∈ evs -> no_folder (ymd c) folder_ok = false) ->
      completed a init2 evs = handled evs).
Proof.
  intros s init2 s2.
  destruct (main_loop_big gray_blur cv2_rectangle cfg evs
              (initial f0 stamp ok)) as [Hw Ho].
  destruct (main2_loop_big a evs init2) as (Hw2 & Ho2 & _).
  fold s in Hw, Ho. fold s2 in Hw2, Ho2.
  destruct (main_run_big gray_blur cv2_rectangle cfg f0 stamp ok
              (handled evs)) as (Hr & Hro & _).
  destruct (main2_run_big a ymd0 hms0 ok2 (completed a init2 evs))
    as (Hr2 & Hro2 & _).
  fold init2 in Hr2, Hro2.
  unfold file_of. rewrite Hw, Ho, Hw2, Ho2, Hr, Hro, Hr2, Hro2.
  repeat split; try done.
  - apply completed_prefix.
  - apply completed_all.
Qed.

(** C6. In both scripts, whatever the state and the frame, a clip is not
    started while one is being recorded, and none is stopped while none
    is being recorded. *)
Theorem no_double_start_or_stop cfg s c a s2 :
  ~ (Main.motion_detected s = true
     /\ decision (iteration cfg s c).2 = Start)
  /\ ~ (Main.motion_detected s = false
        /\ decision (iteration cfg s c).2 = Stop)
  /\ ~ (Main2.motion_detected s2 = true
        /\ (Main2.iteration a s2 c).2 = Start)
  /\ ~ (Main2.motion_detected s2 = false
        /\ (Main2.iteration a s2 c).2 = Stop).
Proof.
  destruct (main_step_view gray_blur cv2_rectangle cfg s c) as [_ Hd].
  destruct (main2_step_view a s2 c) as [_ Hd2].
  rewrite Hd, Hd2.
  change (Main.motion_detected s) with (k_motion_detected (main_view s)).
  change (Main2.motion_detected s2) with (k_motion_detected (main2_view s2)).
  repeat split; intros [Hm Hdec];
    apply core_start_iff in Hdec || apply core_stop_iff in Hdec;
    destruct Hdec as (? & _); congruence.
Qed.

(** C7, as the code has it. Neither script looks at whether a clip
    writer opened. When a frame starts a clip and the writer does not
    open, the logic is recording all the same and holds the unopened
    writer; the clip number was advanced once; no frame ever reaches
    that writer's file; until a clip is stopped no further start is
    tried and the clip number stays; and the loop goes on with the next
    read. In [main_2.py] the clip may also fail on its folder: when the
    folder is missing and cannot be made, [os.makedirs] raises. Then no
    writer is made, the logic stays idle with the clip number already
    advanced, the frame goes to no writer, the [finally] block releases
    the full-session writer, and the loop is left by the [OSError]. *)
Theorem failed_open_goes_unnoticed cfg s c a s2 :
  let s' := (iteration cfg s c).1 in
  let s2' := (Main2.iteration a s2 c).1 in
  let h := length (Main.writers s) in
  let h2 := length (Main2.writers s2) in
  (decision (iteration cfg s c).2 = Start -> open_ok c = false ->
   Main.motion_detected s' = true /\ Main.out s' = Some h
   /\ Main.clip_number s' = Main.clip_number s + 1
   /\ (forall cs, exists w,
         Main.writers (run cfg s' cs) !! h = Some w
         /\ opened w = false /\ file_of w = [])
   /\ (forall cs,
         (Stop ∉ decisions cfg s' cs) ->
         (Start ∉ decisions cfg s' cs)
         /\ Main.clip_number (run cfg s' cs) = Main.clip_number s'
         /\ Main.motion_detected (run cfg s' cs) = true)
   /\ (forall folder_ok rest,
         key_q c = false ->
         Main.loop gray_blur cv2_rectangle cfg s (Frame c folder_ok :: rest)
         = Main.loop gray_blur cv2_rectangle cfg s' rest))
  /\ ((Main2.iteration a s2 c).2 = Start -> open_ok c = false ->
      Main2.motion_detected s2' = true /\ Main2.out s2' = Some h2
      /\ Main2.clip_number s2' = Main2.clip_number s2 + 1
      /\ (forall cs, exists w,
            Main2.writers (Main2.run a s2' cs) !! h2 = Some w
            /\ opened w = false /\ file_of w = [])
      /\ (forall cs,
            (Stop ∉ Main2.decisions a s2' cs) ->
            (Start ∉ Main2.decisions a s2' cs)
            /\ Main2.clip_number (Main2.run a s2' cs)
               = Main2.clip_number s2'
            /\ Main2.motion_detected (Main2.run a s2' cs) = true)
      /\ (forall folder_ok rest,
            key_q c = false -> no_folder (ymd c) folder_ok = false ->
            Main2.loop a s2 (Frame c folder_ok :: rest)
            = Main2.loop a s2' rest))
  /\ ((Main2.iteration a s2 c).2 = Start ->
      forall folder_ok rest,
        no_folder (ymd c) folder_ok = true ->
        let r := Main2.loop a s2 (Frame c folder_ok :: rest) in
        r.2 = Raised OSError
        /\ Main2.motion_detected r.1 = false
        /\ Main2.out r.1 = Main2.out s2
        /\ Main2.clip_number r.1 = Main2.clip_number s2 + 1
        /\ length (Main2.writers r.1) = length (Main2.writers s2)
        /\ written <$> Main2.writers r.1 = written <$> Main2.writers s2
        /\ written (Main2.big_clip_out r.1)
           = written (Main2.big_clip_out s2)
        /\ released (Main2.big_clip_out r.1) = true).
Proof.
  intros s' s2' h h2.
  destruct (main_step_view gray_blur cv2_rectangle cfg s c) as [Hs Hdv].
  destruct (main2_step_view a s2 c) as [Hs2 Hdv2].
  split; [|split]; intros Hd.
  - intros Hok. rewrite Hdv in Hd.
    destruct (core_failed_open _ _ _ _ Hd Hok) as (Hm & Ho & Hn & Hw & Hr).
    rewrite <- Hs in Hm, Ho, Hn, Hw, Hr.
    simpl in Ho, Hw. rewrite length_fmap in Ho, Hw.
    split; [done|]. split; [done|]. split; [done|]. split; [|split].
    + intros cs. apply unopened_lookup.
      specialize (Hw cs).
      rewrite <- (main_run_view gray_blur cv2_rectangle) in Hw.
      simpl in Hw. by rewrite opened_anon in Hw.
    + intros cs Hstop. rewrite main_decisions_view in Hstop |- *.
      specialize (Hr cs Hstop).
      rewrite <- (main_run_view gray_blur cv2_rectangle) in Hr. done.
    + intros fok rest Hq. simpl. by rewrite Hq.
  - intros Hok. rewrite Hdv2 in Hd.
    destruct (core_failed_open _ _ _ _ Hd Hok) as (Hm & Ho & Hn & Hw & Hr).
    rewrite <- Hs2 in Hm, Ho, Hn, Hw, Hr.
    simpl in Ho, Hw. rewrite length_fmap in Ho, Hw.
    split; [done|]. split; [done|]. split; [done|]. split; [|split].
    + intros cs. apply unopened_lookup.
      specialize (Hw cs). rewrite <- main2_run_view in Hw.
      simpl in Hw. by rewrite opened_anon in Hw.
    + intros cs Hstop. rewrite main2_decisions_view in Hstop |- *.
      specialize (Hr cs Hstop). rewrite <- main2_run_view in Hr. done.
    + intros fok rest Hq Hf. simpl.
      rewrite main2_body_completes by done. by rewrite Hq.
  - intros fok rest Hf r. subst r. simpl.
    rewrite main2_body_spec, Hf, bool_decide_eq_true_2 by done. simpl.
    rewrite Hdv2 in Hd. apply core_start_iff in Hd as (Hidle & _).
    simpl in Hidle.
    destruct s2 as [cn o df big md mc nmc fc es ws]. simpl in *.
    unfold Main2.teardown. simpl.
    destruct o as [ho|]; simpl;
      rewrite ?written_alter_release, ?length_alter; done.
Qed.

(** C8, as the code has it. [main_2.py] rejects a command line only when
    [argparse] cannot read it: something other than the four options,
    or a value that is no integer (for the region, not four integers).
    Then the script ends before the camera and any writer is opened.
    A command line that can be read is never rejected for its values:
    the thresholds are used as given, and the region is clamped by
    [validate_roi], which always yields a region inside the 640 x 480
    frame and leaves a region unchanged exactly when it was inside
    already. The session then starts unless the camera does not open
    ([IOError]) or the folder of the day cannot be made ([OSError]). *)
Theorem roi_clamped_not_rejected cl a camera_opened ymd0 hms0 folder_ok ok r :
  (Main2.parse_arguments cl = None
   <-> Main2.opt_other cl = true
       \/ Main2.opt_motion_threshold cl = Main2.Unusable
       \/ Main2.opt_no_motion_threshold cl = Main2.Unusable
       \/ Main2.opt_sensitivity cl = Main2.Unusable
       \/ Main2.opt_roi cl = Main2.Unusable)
  /\ (Main2.parse_arguments cl = None ->
      Main2.startup cl camera_opened ymd0 hms0 folder_ok ok
      = Main2.UsageExit)
  /\ (Main2.parse_arguments cl = Some a ->
      Main2.a_motion_threshold a
      = match Main2.opt_motion_threshold cl with
        | Main2.Value v => v
        | _ => 10
        end
      /\ Main2.a_no_motion_threshold a
         = match Main2.opt_no_motion_threshold cl with
           | Main2.Value v => v
           | _ => 20
           end
      /\ Main2.a_roi a
         = match Main2.opt_roi cl with
           | Main2.Value v => v
           | _ => (250, 150, 200, 200)
           end
      /\ Main2.startup cl camera_opened ymd0 hms0 folder_ok ok
         = if camera_opened
           then if no_folder ymd0 folder_ok then Main2.FolderError
                else Main2.Session a
                       (Main2.validate_roi (Main2.a_roi a) 640 480)
                       (Main2.initial ymd0 hms0 ok)
           else Main2.IOError)
  /\ roi_valid (Main2.validate_roi r 640 480) 640 480 = true
  /\ (roi_valid r 640 480 = true <-> Main2.validate_roi r 640 480 = r).
Proof.
  split; [apply parse_arguments_None|].
  split; [intros E; unfold Main2.startup; by rewrite E|].
  split.
  - intros E. destruct (parse_arguments_Some cl a E) as (? & ? & _ & ?).
    by rewrite (startup_parsed cl a).
  - split; [apply validate_roi_valid; lia|apply validate_roi_fixed; lia].
Qed.

(** C9, as the code has it. [main.py] replaces the reference image at a
    frame exactly when the frame count, which starts at 1, is a multiple
    of the refresh interval, and leaves it as it is at every other
    frame. The new reference does not depend on the old one. It is not
    derived from the frame the camera gave but from that frame with the
    rectangle of the region drawn on it, which line 118 draws on the
    frame itself before line 125 reads it: each of its pixels is the
    pixel of the gray, blurred image of the marked frame 150 rows down
    and 250 columns to the right, within 200 rows and 200 columns. With
    interval 3 a session of seven frames replaces the reference at
    frames 3 and 6 and at no other. The script's interval is 300; the
    interval is taken non-zero, as Python's [%] raises on 0. *)
Theorem reference_refresh cfg s c thr nthr f0 stamp ok c1 c2 c3 c4 c5 c6 c7 :
  refresh_interval cfg <> 0 ->
  let s' := (iteration cfg s c).1 in
  let due := (Main.frame_count s + 1) `mod` refresh_interval cfg =? 0 in
  let marked := cv2_rectangle (cap_frame c) (250, 150) (450, 350) in
  refreshed (iteration cfg s c).2 = due
  /\ (due = false -> Main.first_gray_roi s' = Main.first_gray_roi s)
  /\ (due = true -> baseline_from gray_blur marked (Main.first_gray_roi s'))
  /\ refreshed <$> Main.outcomes gray_blur cv2_rectangle
                     (mkConfig thr nthr 3) (initial f0 stamp ok)
                     [c1; c2; c3; c4; c5; c6; c7]
     = [false; false; true; false; false; true; false]
  /\ refresh_interval Main.the_config = 300.
Proof.
  intros _ s' due marked.
  destruct (main_step_refresh gray_blur cv2_rectangle cfg s c)
    as (_ & Hr & Href).
  fold s' due in Hr, Href.
  split; [done|]. split; [|split; [|split; [|done]]].
  - intros E. by rewrite E in Href.
  - intros E. rewrite E in Href. rewrite Href. apply crop_roi_baseline.
  - by rewrite main_refreshed_run.
Qed.

(** C10. In a session of either script the clip counter starts at 1 and
    is one more than the number of clips started so far; the clips, in
    the order they were started, carry the numbers 2, 3, 4, ... in their
    file names, printed as 002, 003, 004, and no clip carries the
    number 1. *)
Theorem clip_numbers_from_two cfg f0 stamp ok a ymd0 hms0 ok2 cs :
  let s := run cfg (initial f0 stamp ok) cs in
  let ds := decisions cfg (initial f0 stamp ok) cs in
  let s2 := Main2.run a (Main2.initial ymd0 hms0 ok2) cs in
  let ds2 := Main2.decisions a (Main2.initial ymd0 hms0 ok2) cs in
  Main.clip_number (initial f0 stamp ok) = 1
  /\ Main.clip_number s = 1 + Z.of_nat (length (started cs ds))
  /\ path <$> Main.writers s
     = imap (fun i c => main_clip_name (2 + Z.of_nat i) c) (started cs ds)
  /\ Main2.clip_number (Main2.initial ymd0 hms0 ok2) = 1
  /\ Main2.clip_number s2 = 1 + Z.of_nat (length (started cs ds2))
  /\ path <$> Main2.writers s2
     = imap (fun i c => main2_clip_path (2 + Z.of_nat i) c) (started cs ds2)
  /\ fmt_03d 2 = "002" /\ fmt_03d 3 = "003" /\ fmt_03d 4 = "004"
  /\ (forall i : nat, fmt_03d (2 + Z.of_nat i) <> "001").
Proof.
  intros s ds s2 ds2.
  destruct (main_run_names gray_blur cv2_rectangle cfg cs
              (initial f0 stamp ok)) as [Hn Hp].
  destruct (main2_run_names a cs (Main2.initial ymd0 hms0 ok2)) as [Hn2 Hp2].
  repeat split; try done.
  intros i E. change "001" with (fmt_03d 1) in E.
  apply fmt_03d_inj in E; lia.
Qed.

End Claims.

(** ** Closed examples *)

(** C1 as the specification states it fails. With motion threshold 2 the
    flags motion, motion, no motion, motion start a clip at the fourth
    frame in both scripts, although the last three frames were not all
    motion frames. *)
Lemma start_without_consecutive_run :
  let s := Main.run gray_blur0 rectangle0 cfg22 main_start [T; T; F] in
  let s2 := Main2.run args22 main2_start [T; T; F] in
  ~ start_iff_consecutive 2 (negb (Main.motion_detected s))
      (motion <$> [T; T; F; T])
      (decision (Main.iteration gray_blur0 rectangle0 cfg22 s T).2)
  /\ ~ start_iff_consecutive 2 (negb (Main2.motion_detected s2))
         (motion <$> [T; T; F; T]) (Main2.iteration args22 s2 T).2.
Proof.
  intros s s2. split; intros [H _]; destruct (H eq_refl) as [_ Hrun];
    vm_compute in Hrun; discriminate.
Qed.

Lemma start_decision_rule_witness :
  let s := Main.run gray_blur0 rectangle0 cfg22 main_start [F; T; T] in
  let s2 := Main2.run args22 main2_start [F; T; T] in
  ends_in_motion 3 (motion <$> [F; T; T; T]) = true
  /\ decision (Main.iteration gray_blur0 rectangle0 cfg22 s T).2 = Start
  /\ (Main2.iteration args22 s2 T).2 = Start.
Proof.
  intros s s2.
  destruct (start_decision_rule gray_blur0 rectangle0 cfg22 []
              "20240101_120000" true args22 "20240101" "120000" true
              [F; T; T] T)
    as (_ & H1 & _ & H2).
  split; [reflexivity|].
  split; [exact (H1 eq_refl eq_refl eq_refl)|
          exact (H2 eq_refl eq_refl eq_refl)].
Defined.

(** C2 as the specification states it fails. A frame without motion that
    follows a motion frame leaves the motion counter at 1, and then both
    counters are 1, in both scripts. *)
Lemma both_counters_nonzero :
  let s := Main.run gray_blur0 rectangle0 Main.the_config main_start [T] in
  let s' := (Main.iteration gray_blur0 rectangle0 Main.the_config s F).1 in
  let s2 := Main2.run args22 main2_start [T] in
  let s2' := (Main2.iteration args22 s2 F).1 in
  ~ counters_as_specified (motion F) (Main.motion_counter s)
      (Main.no_motion_counter s) (Main.motion_counter s')
      (Main.no_motion_counter s')
  /\ ~ counters_exclusive (Main.motion_counter s') (Main.no_motion_counter s')
  /\ ~ counters_as_specified (motion F) (Main2.motion_counter s2)
         (Main2.no_motion_counter s2) (Main2.motion_counter s2')
         (Main2.no_motion_counter s2')
  /\ ~ counters_exclusive (Main2.motion_counter s2')
         (Main2.no_motion_counter s2').
Proof.
  intros s s' s2 s2'. vm_compute.
  repeat split; intros H; destruct H; discriminate.
Qed.

(** C4 as the specification states it fails. With motion threshold 2
    the third motion frame starts a clip whose writer does not open:
    after it a clip is being recorded and [out] is a writer, but not
    one that is open, in both scripts. *)
Lemma recording_without_sink :
  let s := Main.run gray_blur0 rectangle0 cfg22 main_start
             [T; T; T_unwritable] in
  let s2 := Main2.run args22 main2_start [T; T; T_unwritable] in
  ~ mode_matches_sink (Main.motion_detected s) (Main.out s) (Main.writers s)
  /\ ~ mode_matches_sink (Main2.motion_detected s2) (Main2.out s2)
         (Main2.writers s2).
Proof.
  intros s s2.
  split; intros [H _]; destruct (H eq_refl) as (h & w & Ho & Hw & Hl);
    vm_compute in Ho; injection Ho as <-;
    vm_compute in Hw; injection Hw as <-; discriminate.
Qed.

(** C5 as the specification states it fails. The frame [main.py] reads
    before its loop is in no file; a full-session writer that did not
    open leaves an empty file; and in [main_2.py], with motion
    threshold 2, a third motion frame on a new day whose folder cannot
    be made is read but not written. *)
Lemma read_frames_missing :
  let evs := [Frame (shot 10 true) true; Frame (shot 20 false) true;
              NoFrame] in
  let s := (Main.loop gray_blur0 rectangle0 cfg22
              (Main.initial gray_blur0 (scene 0) "20240101_120000" true)
              evs).1 in
  let closed := (Main.loop gray_blur0 rectangle0 cfg22
                   (Main.initial gray_blur0 (scene 0) "20240101_120000"
                      false) evs).1 in
  let evs2 := [Frame T true; Frame T true; Frame T_next_day false] in
  let s2 := (Main2.loop args22 main2_start evs2).1 in
  ~ holds_every_frame (scene 0 :: (cap_frame <$> handled evs))
      (file_of (Main.big_clip_out s))
  /\ ~ holds_every_frame (cap_frame <$> handled evs)
         (file_of (Main.big_clip_out closed))
  /\ ~ holds_every_frame (cap_frame <$> handled evs2)
         (file_of (Main2.big_clip_out s2)).
Proof.
  intros evs s closed evs2 s2. unfold holds_every_frame.
  split; [|split]; intros H; apply (f_equal length) in H;
    vm_compute in H; discriminate.
Qed.

(** C7 as the specification states it fails. With motion threshold 2 the
    third motion frame starts a clip; its writer does not open, and the
    logic is recording after the frame, in both scripts. *)
Lemma failed_open_keeps_recording :
  let s := Main.run gray_blur0 rectangle0 cfg22 main_start [T; T] in
  let s2 := Main2.run args22 main2_start [T; T] in
  ~ failed_open_reverts
      (decision (Main.iteration gray_blur0 rectangle0 cfg22 s T_unwritable).2)
      (open_ok T_unwritable)
      (Main.motion_detected
         (Main.iteration gray_blur0 rectangle0 cfg22 s T_unwritable).1)
  /\ ~ failed_open_reverts (Main2.iteration args22 s2 T_unwritable).2
         (open_ok T_unwritable)
         (Main2.motion_detected (Main2.iteration args22 s2 T_unwritable).1).
Proof.
  intros s s2. split; intros H; specialize (H eq_refl eq_refl); discriminate.
Qed.

Lemma failed_open_goes_unnoticed_witness :
  let s := Main.run gray_blur0 rectangle0 cfg22 main_start [T; T] in
  let s2 := Main2.run args22 main2_start [T; T] in
  decision (Main.iteration gray_blur0 rectangle0 cfg22 s T_unwritable).2
  = Start
  /\ (Main2.iteration args22 s2 T_unwritable).2 = Start
  /\ open_ok T_unwritable = false
  /\ Main.motion_detected
       (Main.iteration gray_blur0 rectangle0 cfg22 s T_unwritable).1 = true
  /\ Main2.motion_detected (Main2.iteration args22 s2 T_unwritable).1 = true
  /\ (Main2.iteration args22 s2 T_next_day).2 = Start
  /\ no_folder (ymd T_next_day) false = true
  /\ (Main2.loop args22 s2 [Frame T_next_day false]).2 = Raised OSError
  /\ Main2.motion_detected (Main2.loop args22 s2 [Frame T_next_day false]).1
     = false.
Proof.
  intros s s2.
  split; [reflexivity|]. split; [reflexivity|]. split; [reflexivity|].
  destruct (failed_open_goes_unnoticed gray_blur0 rectangle0 cfg22 s
              T_unwritable args22 s2) as (H1 & H2 & _).
  destruct (H1 eq_refl eq_refl) as [Hm _].
  destruct (H2 eq_refl eq_refl) as [Hm2 _].
  split; [exact Hm|]. split; [exact Hm2|].
  split; [reflexivity|]. split; [reflexivity|].
  destruct (failed_open_goes_unnoticed gray_blur0 rectangle0 cfg22 s
              T_next_day args22 s2) as (_ & _ & H3).
  destruct (H3 eq_refl false [] eq_refl) as (Hr & Hidle & _).
  split; [exact Hr|exact Hidle].
Defined.

(** C8 as the specification states it fails. A region outside the frame
    and a negative threshold do not keep the session from starting. *)
Lemma invalid_config_accepted :
  ~ invalid_config_rejected
      (Main2.mkCmdline (Main2.Value (-5)) Main2.Absent Main2.Absent
         (Main2.Value (700, 500, 200, 200)) false).
Proof.
  intros H.
  exact (H (Main2.mkArgs (-5) 20 500 (700, 500, 200, 200)) eq_refl eq_refl
           true "20240101" "120000" true true).
Qed.

(** C9 as the specification states it fails. In a session of [main.py]
    on a scene that does not change, the reference image taken at frame
    300 is not the one derived from the frame the camera gave: its
    corner pixel is that of the rectangle. The same scene, cropped at
    the next frame, differs from the reference there. *)
Lemma baseline_has_outline :
  let still := shot 0 false in
  let s := Main.run gray1 outline1 Main.the_config
             (Main.initial gray1 (scene 0) "20240101_120000" true)
             (replicate 300 still) in
  ~ baseline_from gray1 (cap_frame still) (Main.first_gray_roi s)
  /\ pixel_at (Main.first_gray_roi s) 0 0 = Some 255
  /\ pixel_at (Main.crop_roi (gray1 (cap_frame still))) 0 0 = Some 0.
Proof.
  intros still s.
  assert (Main.first_gray_roi s
          = Main.crop_roi
              (gray1 (outline1 (cap_frame still) (250, 150) (450, 350))))
    as Href.
  { subst s.
    rewrite (main_run_reference gray1 outline1 Main.the_config
               (replicate 300 still)) by done.
    reflexivity. }
  assert (pixel_at (Main.first_gray_roi s) 0 0 = Some 255) as Hpx
    by (rewrite Href; vm_compute; reflexivity).
  split; [|split; [exact Hpx|vm_compute; reflexivity]].
  intros H. specialize (H 0%nat 0%nat). rewrite Hpx in H.
  vm_compute in H. discriminate.
Qed.

Lemma reference_refresh_witness :
  let s := Main.set_frame_count 299
             (Main.initial gray1 (scene 0) "20240101_120000" true) in
  refresh_interval Main.the_config <> 0
  /\ refreshed (Main.iteration gray1 outline1 Main.the_config s
                  (shot 0 false)).2 = true
  /\ pixel_at (Main.first_gray_roi
                 (Main.iteration gray1 outline1 Main.the_config s
                    (shot 0 false)).1) 0 0
     = pixel_at (gray1 (outline1 (scene 0) (250, 150) (450, 350))) 150 250.
Proof.
  intros s.
  assert (refresh_interval Main.the_config <> 0) as Hi by discriminate.
  destruct (reference_refresh gray1 outline1 Main.the_config s
              (shot 0 false) 2 2 (scene 0) "20240101_120000" true
              T T T T T T T Hi) as (Hr & _ & Href & _).
  split; [exact Hi|]. split; [exact Hr|].
  exact (Href eq_refl 0%nat 0%nat).
Defined.

(** * Further properties *)

(** ** The further properties of the two scripts *)

Section Further.

Variable gray_blur : frame -> image.
Variable cv2_rectangle : frame -> Z * Z -> Z * Z -> frame.

#[local] Abbreviation iteration := (Main.iteration gray_blur cv2_rectangle).
#[local] Abbreviation run := (Main.run gray_blur cv2_rectangle).
#[local] Abbreviation loop := (Main.loop gray_blur cv2_rectangle).
#[local] Abbreviation decisions := (Main.decisions gray_blur cv2_rectangle).
#[local] Abbreviation initial := (Main.initial gray_blur).

(** X1. In both scripts a frame stops the clip if and only if a clip was
    being recorded, the frame shows no motion, and the last
    no_motion_threshold + 1 frames, this one included, all showed no
    motion: unlike the motion counter, the no-motion counter counts
    consecutive frames. *)
Theorem stop_decision_rule cfg f0 stamp ok a ymd0 hms0 ok2 cs c :
  let s := run cfg (initial f0 stamp ok) cs in
  let s2 := Main2.run a (Main2.initial ymd0 hms0 ok2) cs in
  (decision (iteration cfg s c).2 = Stop
   <-> Main.motion_detected s = true /\ motion c = false
       /\ ends_in_quiet (Z.to_nat (no_motion_threshold cfg + 1))
            ((motion <$> cs) ++ [motion c]) = true)
  /\ ((Main2.iteration a s2 c).2 = Stop
      <-> Main2.motion_detected s2 = true /\ motion c = false
          /\ ends_in_quiet (Z.to_nat (Main2.a_no_motion_threshold a + 1))
               ((motion <$> cs) ++ [motion c]) = true).
Proof.
  intros s s2.
  destruct (main_step_view gray_blur cv2_rectangle cfg s c) as [_ Hd].
  destruct (main2_step_view a s2 c) as [_ Hd2].
  rewrite Hd, Hd2.
  change (Main.motion_detected s) with (k_motion_detected (main_view s)).
  change (Main2.motion_detected s2) with (k_motion_detected (main2_view s2)).
  subst s s2.
  rewrite main_run_view, main2_run_view, main_initial_view,
    main2_initial_view.
  split; apply core_stop_rule.
Qed.

(** X2. In a session of either script starts and stops take turns,
    beginning with a start, and the clips started are as many as the
    clips stopped, plus the one being recorded if there is one. *)
Theorem starts_and_stops_alternate cfg f0 stamp ok a ymd0 hms0 ok2 cs :
  let ds := decisions cfg (initial f0 stamp ok) cs in
  let s := run cfg (initial f0 stamp ok) cs in
  let ds2 := Main2.decisions a (Main2.initial ymd0 hms0 ok2) cs in
  let s2 := Main2.run a (Main2.initial ymd0 hms0 ok2) cs in
  alternates false ds = true
  /\ count_of Start ds
     = (count_of Stop ds + if Main.motion_detected s then 1 else 0)%nat
  /\ alternates false ds2 = true
  /\ count_of Start ds2
     = (count_of Stop ds2 + if Main2.motion_detected s2 then 1 else 0)%nat.
Proof.
  intros ds s ds2 s2.
  change (Main.motion_detected s) with (k_motion_detected (main_view s)).
  change (Main2.motion_detected s2) with (k_motion_detected (main2_view s2)).
  subst ds s ds2 s2.
  rewrite main_decisions_view, main2_decisions_view, main_run_view,
    main2_run_view, main_initial_view, main2_initial_view.
  pose proof (core_start_stop_count (motion_threshold cfg)
                (no_motion_threshold cfg) cs (core_initial ok)) as H1.
  pose proof (core_start_stop_count (Main2.a_motion_threshold a)
                (Main2.a_no_motion_threshold a) cs (core_initial ok2)) as H2.
  simpl in H1, H2. rewrite Nat.add_0_r in H1, H2.
  split; [apply (core_alternates _ _ cs (core_initial ok))|].
  split; [done|].
  split; [apply (core_alternates _ _ cs (core_initial ok2))|done].
Qed.

(** X3. In a session of either script the clip writers hold, clip by
    clip in the order the clips were started: the frame that started the
    clip and every frame after it up to, and not including, the frame
    that stopped it. No frame goes to a clip that was stopped, and none
    to a clip while no clip is recorded. *)
Theorem clip_contents cfg f0 stamp ok a ymd0 hms0 ok2 cs :
  written <$> Main.writers (run cfg (initial f0 stamp ok) cs)
  = segments false [] cs (decisions cfg (initial f0 stamp ok) cs)
  /\ written <$> Main2.writers (Main2.run a (Main2.initial ymd0 hms0 ok2) cs)
     = segments false [] cs
         (Main2.decisions a (Main2.initial ymd0 hms0 ok2) cs).
Proof.
  split.
  - rewrite <- written_anon.
    change (anon <$> Main.writers (run cfg (initial f0 stamp ok) cs))
      with (k_writers (main_view (run cfg (initial f0 stamp ok) cs))).
    rewrite main_run_view, main_decisions_view, main_initial_view.
    by rewrite core_run_segments by apply clip_inv_initial.
  - rewrite <- written_anon.
    change (anon <$> Main2.writers
                       (Main2.run a (Main2.initial ymd0 hms0 ok2) cs))
      with (k_writers (main2_view
                         (Main2.run a (Main2.initial ymd0 hms0 ok2) cs))).
    rewrite main2_run_view, main2_decisions_view, main2_initial_view.
    by rewrite core_run_segments by apply clip_inv_initial.
Qed.

(** X4. In a session of either script every clip that was stopped holds
    at least no_motion_threshold + 1 frames, and at least one. *)
Theorem stopped_clips_long_enough cfg f0 stamp ok a ymd0 hms0 ok2 cs :
  Forall (long_enough (no_motion_threshold cfg))
    (Main.writers (run cfg (initial f0 stamp ok) cs))
  /\ Forall (long_enough (Main2.a_no_motion_threshold a))
       (Main2.writers (Main2.run a (Main2.initial ymd0 hms0 ok2) cs)).
Proof.
  split; apply long_enough_anon.
  - change (anon <$> Main.writers (run cfg (initial f0 stamp ok) cs))
      with (k_writers (main_view (run cfg (initial f0 stamp ok) cs))).
    rewrite main_run_view, main_initial_view.
    apply core_len_run; [apply clip_inv_initial|]. split; constructor.
  - change (anon <$> Main2.writers
                       (Main2.run a (Main2.initial ymd0 hms0 ok2) cs))
      with (k_writers (main2_view
                         (Main2.run a (Main2.initial ymd0 hms0 ok2) cs))).
    rewrite main2_run_view, main2_initial_view.
    apply core_len_run; [apply clip_inv_initial|]. split; constructor.
Qed.

(** X5. While the loop of either script runs, its state is that of the
    frames handled so far. [main.py], left by a failed read or the quit
    key, releases every clip writer and the full-session writer, also a
    clip that was being recorded; left by a KeyboardInterrupt while it
    waits for a frame, which it does not catch, it releases nothing:
    the full-session writer and the clip being recorded stay
    unreleased. [main_2.py] catches such an interrupt, and releases
    every writer in each of the ways of leaving that are modelled: a
    failed read, the quit key, an interrupt, or the [OSError] of
    [os.makedirs]. In no case does leaving change the frames a writer
    was handed. *)
Theorem leaving_releases_all cfg f0 stamp ok a ymd0 hms0 ok2 evs :
  let r := loop cfg (initial f0 stamp ok) evs in
  let r2 := Main2.loop a (Main2.initial ymd0 hms0 ok2) evs in
  let s := run cfg (initial f0 stamp ok) (handled evs) in
  let s2 := Main2.run a (Main2.initial ymd0 hms0 ok2)
              (completed a (Main2.initial ymd0 hms0 ok2) evs) in
  r.2 = main_exit evs
  /\ match r.2 with
     | Finished =>
         held_handles (Main.writers r.1) = []
         /\ released (Main.big_clip_out r.1) = true
     | _ =>
         r.1 = s
         /\ held_handles (Main.writers r.1) = option_list (Main.out s)
         /\ released (Main.big_clip_out r.1) = false
     end
  /\ written <$> Main.writers r.1 = written <$> Main.writers s
  /\ written (Main.big_clip_out r.1) = written (Main.big_clip_out s)
  /\ (ended evs = true -> r2.2 <> Running)
  /\ r2.2 <> Raised KeyboardInterrupt
  /\ match r2.2 with
     | Running => r2.1 = s2
     | _ =>
         held_handles (Main2.writers r2.1) = []
         /\ released (Main2.big_clip_out r2.1) = true
     end
  /\ written <$> Main2.writers r2.1 = written <$> Main2.writers s2
  /\ written (Main2.big_clip_out r2.1) = written (Main2.big_clip_out s2).
Proof.
  intros r r2 s s2.
  assert (clip_inv (main_view s)) as Hinv.
  { subst s. rewrite main_run_view, main_initial_view.
    apply clip_inv_run, clip_inv_initial. }
  assert (clip_inv (main2_view s2)) as Hinv2.
  { subst s2. rewrite main2_run_view, main2_initial_view.
    apply clip_inv_run, clip_inv_initial. }
  assert (r = (r.1, r.2)) as Hr by by destruct r.
  subst r. rewrite main_loop_status, main_loop_state in *. fold s.
  split; [done|].
  assert (held_handles (Main.writers s) = option_list (Main.out s)
          /\ released (Main.big_clip_out s) = false) as [Hheld Hbig].
  { split.
    - apply clip_inv_handles in Hinv as (_ & Hh & _). simpl in Hh.
      by rewrite held_handles_anon in Hh.
    - subst s. apply main_run_big. }
  destruct (main_teardown_released
              (Main.set_frame_count
                 (Main.frame_count (initial f0 stamp ok)
                  + Z.of_nat (attempts evs)) s) Hinv)
    as (H1 & _ & H2 & H3 & H4).
  split; [|split; [|split]].
  { destruct (main_exit evs); done. }
  { destruct (main_exit evs); done. }
  { destruct (main_exit evs); done. }
  destruct (main2_loop_cases a evs (Main2.initial ymd0 hms0 ok2))
    as [(E & Hend & _)|[E|(s' & E & Ho & Hw & Hb & _)]];
    fold r2 in E; fold s2 in E; rewrite E; cbn [fst snd].
  - split; [congruence|]. by repeat split.
  - destruct (main2_teardown_released s2 (main2_release_all s2 Hinv2))
      as (? & _ & ? & ? & ?).
    by repeat split.
  - fold s2 in Ho, Hw, Hb.
    destruct (main2_teardown_released s') as (? & _ & ? & Hws & Hwb).
    { rewrite Ho, Hw. by apply main2_release_all. }
    rewrite Hws, Hwb, Hw, Hb. by repeat split.
Qed.

(** X6. Once the loop of either script has been left, what the camera
    would return afterwards changes nothing. *)
Theorem nothing_after_leaving cfg s a s2 reads more :
  ended reads = true ->
  loop cfg s (reads ++ more) = loop cfg s reads
  /\ Main2.loop a s2 (reads ++ more) = Main2.loop a s2 reads.
Proof.
  intros H. split; [by apply main_loop_app|by apply main2_loop_app].
Qed.

(** X7. [main.py] counts in [frame_count] the calls of [camera.read()]
    in its loop that returned, the failed one that ends the loop
    included; the call before the loop, at line 27, is not counted.
    [main_2.py] counts the frames it read in its loop: those it handled
    to the end, and the one at which [os.makedirs] raised. *)
Theorem frame_counts cfg f0 stamp ok a ymd0 hms0 ok2 evs :
  let init2 := Main2.initial ymd0 hms0 ok2 in
  let r2 := Main2.loop a init2 evs in
  Main.frame_count (initial f0 stamp ok) = 0
  /\ Main.frame_count (loop cfg (initial f0 stamp ok) evs).1
     = Z.of_nat (attempts evs)
  /\ Main2.frame_count r2.1
     = Z.of_nat (length (completed a init2 evs))
       + (if bool_decide (r2.2 = Raised OSError) then 1 else 0).
Proof.
  intros init2 r2. split; [done|]. split.
  - rewrite main_loop_state.
    destruct (main_exit evs) eqn:E.
    + rewrite main_run_frame_count, attempts_handled by congruence. simpl.
      lia.
    + unfold Main.teardown. by split_ifs.
    + rewrite main_run_frame_count, attempts_handled by congruence. simpl.
      lia.
  - pose proof (main2_run_frame_count a (completed a init2 evs) init2) as H.
    simpl in H. rewrite Z.add_0_l in H. rewrite <- H.
    assert (forall s, Main2.frame_count (Main2.teardown s)
                      = Main2.frame_count s) as Ht
      by (intros s; unfold Main2.teardown; by split_ifs).
    destruct (main2_loop_cases a evs init2)
      as [(E & _)|[E|(s' & E & _ & _ & _ & Hfc & _)]];
      fold r2 in E; rewrite E; cbn [fst snd]; rewrite ?Ht.
    + rewrite bool_decide_eq_false_2 by done. lia.
    + rewrite bool_decide_eq_false_2 by done. lia.
    + by rewrite bool_decide_eq_true_2.
Qed.

(** X8. Given the same thresholds and the same events, none of them an
    interrupt, which only [main_2.py] catches, nor a frame whose folder
    is missing, at which [os.makedirs] raises in [main_2.py], the two
    scripts decide the same at every frame, leave their loops at the
    same event, and agree after every event on the clip number, on
    whether a clip is recorded, on both counters, on the clip writer in
    use, on the frames handed to each clip writer and to the
    full-session writer, and on which writers opened and which are
    released; whether the two full-session writers opened alike does
    not matter. *)
Theorem scripts_agree cfg f0 stamp ok a ymd0 hms0 ok2 evs :
  Main2.a_motion_threshold a = motion_threshold cfg ->
  Main2.a_no_motion_threshold a = no_motion_threshold cfg ->
  undisturbed evs = true ->
  let r := loop cfg (initial f0 stamp ok) evs in
  let r2 := Main2.loop a (Main2.initial ymd0 hms0 ok2) evs in
  Main2.decisions a (Main2.initial ymd0 hms0 ok2) (handled evs)
  = decisions cfg (initial f0 stamp ok) (handled evs)
  /\ r2.2 = r.2
  /\ Main2.clip_number r2.1 = Main.clip_number r.1
  /\ Main2.motion_detected r2.1 = Main.motion_detected r.1
  /\ Main2.motion_counter r2.1 = Main.motion_counter r.1
  /\ Main2.no_motion_counter r2.1 = Main.no_motion_counter r.1
  /\ Main2.out r2.1 = Main.out r.1
  /\ written <$> Main2.writers r2.1 = written <$> Main.writers r.1
  /\ opened <$> Main2.writers r2.1 = opened <$> Main.writers r.1
  /\ released <$> Main2.writers r2.1 = released <$> Main.writers r.1
  /\ written (Main2.big_clip_out r2.1) = written (Main.big_clip_out r.1)
  /\ released (Main2.big_clip_out r2.1) = released (Main.big_clip_out r.1).
Proof.
  intros Ht Hn Hu r r2.
  set (s := run cfg (initial f0 stamp ok) (handled evs)).
  set (s2 := Main2.run a (Main2.initial ymd0 hms0 ok2) (handled evs)).
  destruct (core_run_common (motion_threshold cfg) (no_motion_threshold cfg)
              (handled evs) (core_initial ok2) (core_initial ok) eq_refl)
    as [Hc Hd].
  assert (common (main2_view s2) = common (main_view s)) as Hv.
  { subst s s2. by rewrite main_run_view, main2_run_view, main_initial_view,
      main2_initial_view, Ht, Hn. }
  assert (common (main2_view r2.1) = common (main_view r.1)
          /\ r2.2 = r.2) as [Hr Hst].
  { subst r r2. rewrite main_loop_status, main_loop_state,
      main2_loop_undisturbed, main_exit_undisturbed by done.
    fold s s2. destruct (ended evs); cbn [fst snd]; [|done].
    split; [|done]. apply teardown_common. by rewrite main_view_frame_count. }
  split.
  { by rewrite main_decisions_view, main2_decisions_view, main_initial_view,
      main2_initial_view, Ht, Hn. }
  split; [done|].
  unfold common in Hr. simpl in Hr.
  injection Hr as H1 H2 H3 H4 H5 H6 H7 H8.
  repeat split; try done.
  - by rewrite <- (written_anon (Main2.writers r2.1)),
      <- (written_anon (Main.writers r.1)), H8.
  - by rewrite <- (opened_anon (Main2.writers r2.1)),
      <- (opened_anon (Main.writers r.1)), H8.
  - by rewrite <- (released_fmap_anon (Main2.writers r2.1)),
      <- (released_fmap_anon (Main.writers r.1)), H8.
Qed.

(** X9. In a session of [main_2.py] the flag [email_sent] is set exactly
    while a clip is recorded, so it is clear whenever a clip starts: the
    notification, were it sent, would be due once for every clip. *)
Theorem email_flag_follows_recording a ymd0 hms0 ok cs c :
  let s := Main2.run a (Main2.initial ymd0 hms0 ok) cs in
  Main2.email_sent s = Main2.motion_detected s
  /\ ~ ((Main2.iteration a s c).2 = Start /\ Main2.email_sent s = true).
Proof.
  intros s.
  assert (Main2.email_sent s = Main2.motion_detected s) as Hs
    by by apply main2_email_run.
  split; [done|]. intros [Hd He]. rewrite Hs in He.
  destruct (main2_step_view a s c) as [_ Hv]. rewrite Hv in Hd.
  apply core_start_iff in Hd as [Hd _]. simpl in Hd. congruence.
Qed.

(** X10. For a frame of at least one pixel each way [validate_roi]
    returns a region inside the frame, whatever region it is given, and
    returns a region unchanged exactly when that was inside the frame.
    Validating twice is the same as validating once, for any frame
    size, positive or not. For a frame of width 0 the region returned
    is not inside the frame: its width is never less than 1. *)
Theorem validate_roi_clamps r W H r' W' H' :
  1 <= W -> 1 <= H ->
  roi_valid (Main2.validate_roi r W H) W H = true
  /\ (roi_valid r W H = true <-> Main2.validate_roi r W H = r)
  /\ Main2.validate_roi (Main2.validate_roi r' W' H') W' H'
     = Main2.validate_roi r' W' H'
  /\ roi_valid (Main2.validate_roi r' 0 H') 0 H' = false.
Proof.
  intros HW HH.
  split; [by apply validate_roi_valid|].
  split; [by apply validate_roi_fixed|].
  split; [apply validate_roi_idempotent|].
  destruct r' as [[[x y] w] h]. unfold roi_valid, Main2.validate_roi.
  rewrite !andb_false_iff, !Z.leb_gt. lia.
Qed.

(** X11. Cropping a frame of W x H pixels to the region [validate_roi]
    returns gives exactly as many rows and columns as the region is high
    and wide: the slices are never cut short by the frame. So does
    the fixed region of [main.py] on a 640 x 480 image. *)
Theorem crop_has_region_size {A} r W H (img : list (list A)) :
  1 <= W -> 1 <= H -> has_size W H img ->
  (let '(x, y, w, h) := Main2.validate_roi r W H in
   has_size w h (crop x y w h img))
  /\ (W = 640 -> H = 480 -> has_size 200 200 (Main.crop_roi img)).
Proof.
  intros HW HH Himg. split.
  - pose proof (validate_roi_valid r W H HW HH) as Hv.
    destruct (Main2.validate_roi r W H) as [[[x y] w] h].
    by apply (crop_size x y w h W H).
  - intros -> ->. by apply (crop_size 250 150 200 200 640 480).
Qed.

(** X12. In a session of [main.py] with a positive refresh interval the
    reference image is always the one taken from the latest frame whose
    number, counted from one, is a multiple of the interval, with the
    rectangle of the region drawn on that frame; while there is no such
    frame it is the one taken from the frame read before the loop, on
    which nothing is drawn. Taken from a frame means: each pixel of the
    reference is the pixel of the gray, blurred image of the frame 150
    rows down and 250 columns to the right, within 200 rows and 200
    columns. *)
Theorem reference_origin cfg f0 stamp ok cs :
  0 < refresh_interval cfg ->
  baseline_from gray_blur
    (match reference_source (refresh_interval cfg) cs with
     | Some c => cv2_rectangle (cap_frame c) (250, 150) (450, 350)
     | None => f0
     end)
    (Main.first_gray_roi (run cfg (initial f0 stamp ok) cs)).
Proof.
  intros Hi.
  rewrite (main_run_reference gray_blur cv2_rectangle cfg cs
             (initial f0 stamp ok) Hi eq_refl).
  destruct (reference_source (refresh_interval cfg) cs);
    apply crop_roi_baseline.
Qed.

(** X13. In a session of [main.py] no two clips get the same file name,
    whatever the clock returns. *)
Theorem main_clip_names_differ cfg f0 stamp ok cs :
  NoDup (path <$> Main.writers (run cfg (initial f0 stamp ok) cs)).
Proof.
  destruct (main_run_names gray_blur cv2_rectangle cfg cs
              (initial f0 stamp ok)) as [_ Hp].
  cbv zeta in Hp. rewrite Hp. simpl.
  apply NoDup_imap_index. intros i j x y _ _ E.
  apply main_clip_name_inj in E; lia.
Qed.

(** X14. In a session of [main_2.py] no two clips get the same path,
    provided the dates the clock returns are strings of digits, as
    [strftime('%Y%m%d')] gives them. *)
Theorem main2_clip_paths_differ a ymd0 hms0 ok cs :
  Forall (fun c => all_digits (ymd c) = true) cs ->
  NoDup (path <$> Main2.writers (Main2.run a (Main2.initial ymd0 hms0 ok) cs)).
Proof.
  intros Hd.
  destruct (main2_run_names a cs (Main2.initial ymd0 hms0 ok)) as [_ Hp].
  cbv zeta in Hp. rewrite Hp. simpl.
  apply NoDup_imap_index. intros i j x y Hx Hy E.
  rewrite Forall_forall in Hd.
  apply main2_clip_path_inj in E; try lia.
  - apply Hd. eapply started_sublist, list_elem_of_lookup_2, Hx.
  - apply Hd. eapply started_sublist, list_elem_of_lookup_2, Hy.
Qed.

(** X15. In both scripts no clip starts within the first
    motion_threshold frames of a session, nor within the
    motion_threshold frames that follow a frame that stopped a clip:
    stopping sets the motion counter back to 0. *)
Theorem no_start_soon cfg f0 stamp ok s c a ymd0 hms0 ok2 s2 cs :
  (Z.of_nat (length cs) <= motion_threshold cfg ->
   (Start ∉ decisions cfg (initial f0 stamp ok) cs)
   /\ (decision (iteration cfg s c).2 = Stop ->
       Start ∉ decisions cfg (iteration cfg s c).1 cs))
  /\ (Z.of_nat (length cs) <= Main2.a_motion_threshold a ->
      (Start ∉ Main2.decisions a (Main2.initial ymd0 hms0 ok2) cs)
      /\ ((Main2.iteration a s2 c).2 = Stop ->
          Start ∉ Main2.decisions a (Main2.iteration a s2 c).1 cs)).
Proof.
  split; intros Hlen; split.
  - rewrite main_decisions_view, main_initial_view.
    apply core_no_start_soon; simpl; lia.
  - intros Hd. rewrite main_decisions_view.
    destruct (main_step_view gray_blur cv2_rectangle cfg s c) as [Hs Hv].
    rewrite Hs. rewrite Hv in Hd.
    destruct (core_step_counters (motion_threshold cfg)
                (no_motion_threshold cfg) (main_view s) c) as [Hc _].
    rewrite Hd in Hc. apply core_no_start_soon; rewrite Hc; lia.
  - rewrite main2_decisions_view, main2_initial_view.
    apply core_no_start_soon; simpl; lia.
  - intros Hd. rewrite main2_decisions_view.
    destruct (main2_step_view a s2 c) as [Hs Hv].
    rewrite Hs. rewrite Hv in Hd.
    destruct (core_step_counters (Main2.a_motion_threshold a)
                (Main2.a_no_motion_threshold a) (main2_view s2) c) as [Hc _].
    rewrite Hd in Hc. apply core_no_start_soon; rewrite Hc; lia.
Qed.

End Further.

(** ** Closed examples of the further properties *)

Lemma nothing_after_leaving_witness :
  ended [Frame T true; NoFrame] = true
  /\ Main.loop gray_blur0 rectangle0 cfg22 main_start
       ([Frame T true; NoFrame] ++ [Frame T true])
     = Main.loop gray_blur0 rectangle0 cfg22 main_start
         [Frame T true; NoFrame]
  /\ Main2.loop args22 main2_start ([Frame T true; NoFrame] ++ [Frame T true])
     = Main2.loop args22 main2_start [Frame T true; NoFrame].
Proof.
  split; [reflexivity|].
  apply (nothing_after_leaving gray_blur0 rectangle0 cfg22 main_start
           args22 main2_start [Frame T true; NoFrame] [Frame T true]).
  reflexivity.
Defined.

Lemma scripts_agree_witness :
  let evs := [Frame T true; Frame T true; Frame T_unwritable true;
              Frame F true; Frame T_next_day true; NoFrame] in
  Main2.a_motion_threshold args22 = motion_threshold cfg22
  /\ Main2.a_no_motion_threshold args22 = no_motion_threshold cfg22
  /\ undisturbed evs = true
  /\ (Main2.loop args22 (Main2.initial "20240101" "120000" false) evs).2
     = (Main.loop gray_blur0 rectangle0 cfg22 main_start evs).2
  /\ Main2.out (Main2.loop args22 (Main2.initial "20240101" "120000" false)
                  evs).1
     = Main.out (Main.loop gray_blur0 rectangle0 cfg22 main_start evs).1.
Proof.
  intros evs.
  split; [reflexivity|]. split; [reflexivity|]. split; [reflexivity|].
  destruct (scripts_agree gray_blur0 rectangle0 cfg22 [] "20240101_120000"
              true args22 "20240101" "120000" false evs
              eq_refl eq_refl eq_refl)
    as (_ & Hst & _ & _ & _ & _ & Hout & _).
  split; [exact Hst|exact Hout].
Defined.

Lemma validate_roi_clamps_witness :
  1 <= 640 /\ 1 <= 480
  /\ roi_valid (Main2.validate_roi (700, 500, 200, 200) 640 480) 640 480
     = true
  /\ Main2.validate_roi (Main2.validate_roi (5, 5, 9, 9) (-3) 0) (-3) 0
     = Main2.validate_roi (5, 5, 9, 9) (-3) 0.
Proof.
  split; [lia|]. split; [lia|].
  destruct (validate_roi_clamps (700, 500, 200, 200) 640 480
              (5, 5, 9, 9) (-3) 0) as (Hv & _ & Hi & _); [lia|lia|].
  split; [exact Hv|exact Hi].
Defined.

Lemma crop_has_region_size_witness :
  has_size 2 2 [[1; 2]; [3; 4]]
  /\ has_size 2 2 (crop 0 0 2 2 [[1; 2]; [3; 4]]).
Proof.
  assert (has_size 2 2 [[1; 2]; [3; 4]]) as Himg.
  { split; [reflexivity|]. repeat constructor. }
  split; [exact Himg|].
  apply (crop_has_region_size (0, 0, 5, 5) 2 2 [[1; 2]; [3; 4]]); [lia|lia|].
  exact Himg.
Defined.

Lemma reference_origin_witness :
  let cs := [shot 10 true; shot 20 false; shot 30 true; shot 40 false] in
  let s := Main.run gray1 outline1 (mkConfig 2 2 3)
             (Main.initial gray1 (scene 0) "20240101_120000" true) cs in
  0 < refresh_interval (mkConfig 2 2 3)
  /\ pixel_at (Main.first_gray_roi s) 1 1 = Some 90
  /\ pixel_at (Main.first_gray_roi s) 0 0 = Some 255
  /\ pixel_at (Main.first_gray_roi s) 200 0 = None.
Proof.
  intros cs s.
  pose proof (reference_origin gray1 outline1 (mkConfig 2 2 3) (scene 0)
                "20240101_120000" true cs eq_refl) as H.
  fold s in H.
  split; [reflexivity|].
  split; [|split]; rewrite H; vm_compute; reflexivity.
Defined.

Lemma main2_clip_paths_differ_witness :
  Forall (fun c => all_digits (ymd c) = true) [T; T; T; F; F; F; T; T; T]
  /\ NoDup (path <$> Main2.writers
                       (Main2.run args22 main2_start
                          [T; T; T; F; F; F; T; T; T])).
Proof.
  assert (Forall (fun c => all_digits (ymd c) = true)
            [T; T; T; F; F; F; T; T; T]) as Hd
    by (repeat constructor).
  split; [exact Hd|].
  apply (main2_clip_paths_differ args22 "20240101" "120000" true
           [T; T; T; F; F; F; T; T; T] Hd).
Defined.

Lemma no_start_soon_witness :
  Z.of_nat (length [T; T]) <= motion_threshold cfg22
  /\ (Start ∉ Main.decisions gray_blur0 rectangle0 cfg22 main_start [T; T])
  /\ Z.of_nat (length [T; T]) <= Main2.a_motion_threshold args22
  /\ (Start ∉ Main2.decisions args22 main2_start [T; T]).
Proof.
  destruct (no_start_soon gray_blur0 rectangle0 cfg22 [] "20240101_120000"
              true main_start T args22 "20240101" "120000" true main2_start
              [T; T]) as [H1 H2].
  split; [vm_compute; discriminate|].
  split; [apply H1; vm_compute; discriminate|].
  split; [vm_compute; discriminate|].
  apply H2. vm_compute. discriminate.
Defined.
